(** * GNOME GitHub PR status: the polling, normalizing and classifying engine

    A shallow embedding of [github.js] (the API client, [normalizePR],
    [categorizePRs]) and of the refresh cycle of [extension.js], with the
    properties the specification states about them.

    Layout: [JS] models the JavaScript values the program handles (parsed
    JSON) and the handful of language operations it applies to them;
    [GitHub] embeds [github.js]; [Extension] embeds the refresh cycle of
    [extension.js]; the theorems follow. *)

From Stdlib Require Import ZArith List String Ascii Bool Lia Permutation.
From Stdlib Require Import DecimalString.
Import ListNotations.

Local Open Scope string_scope.
Local Open Scope Z_scope.

Set Warnings "-register-all".

(* ================================================================== *)
(** * JavaScript values and operations *)
(* ================================================================== *)

Module JS.

(** What [JSON.parse] can return, plus [undefined] (the value of a missing
    property).  Numbers are the integers: the program never computes with a
    parsed number, it only passes it on, tests it or prints it.  An object is
    its list of own properties; [JSON.parse] leaves each key once. *)
Inductive value : Type :=
| VUndefined
| VNull
| VBool (b : bool)
| VNum (n : Z)
| VStr (s : string)
| VArr (xs : list value)
| VObj (props : list (string * value)).

(** The classes of the exceptions that can travel through the program:
    [new Error(...)] of the program itself, the engine's [TypeError], the
    [SyntaxError] of [JSON.parse], and the [GLib.Error] of the transport and
    of the keyring. *)
Inductive exn_class : Type := ErrorC | TypeErrorC | SyntaxErrorC | GLibErrorC.

Record exn : Type := mkExn { exn_cls : exn_class; message : string }.

(** A computation that returns or throws. *)
Inductive result (A : Type) : Type :=
| Ok (a : A)
| Throw (e : exn).
Arguments Ok {A} a.
Arguments Throw {A} e.

Definition bind {A B} (r : result A) (k : A -> result B) : result B :=
  match r with
  | Ok a => k a
  | Throw e => Throw e
  end.

Declare Scope js_scope.
Delimit Scope js_scope with js.
Notation "x <- c ;; k" := (bind c (fun x => k))
  (at level 61, c at next level, right associativity) : js_scope.

(** The text of an engine-raised [TypeError] is the engine's own; the model
    keeps a short description in its place. *)
Definition type_error (what : string) : exn := mkExn TypeErrorC what.

Definition nullish (v : value) : bool :=
  match v with
  | VUndefined | VNull => true
  | _ => false
  end.

(** ToBoolean. *)
Definition truthy (v : value) : bool :=
  match v with
  | VUndefined | VNull => false
  | VBool b => b
  | VNum n => negb (n =? 0)
  | VStr s => negb (s =? "")%string
  | VArr _ | VObj _ => true
  end.

Fixpoint assoc (k : string) (ps : list (string * value)) : option value :=
  match ps with
  | [] => None
  | (k', v) :: ps' => if (k =? k')%string then Some v else assoc k ps'
  end.

Definition string_of_nat (n : nat) : string :=
  NilZero.string_of_uint (Nat.to_uint n).

Definition string_of_Z (n : Z) : string :=
  NilZero.string_of_int (Z.to_int n).

(** A property key that is a canonical array index. *)
Definition key_index (k : string) : option nat :=
  match NilEmpty.uint_of_string k with
  | Some u =>
      let n := Nat.of_uint u in
      if (string_of_nat n =? k)%string then Some n else None
  | None => None
  end.

Definition char_at (s : string) (i : nat) : value :=
  match String.get i s with
  | Some c => VStr (String c EmptyString)
  | None => VUndefined
  end.

(** [o[k]] for an [o] that is neither [null] nor [undefined].  Of the
    inherited properties only [length] is modelled: the program reads no
    other one. *)
Definition get_own (o : value) (k : string) : value :=
  match o with
  | VUndefined | VNull | VBool _ | VNum _ => VUndefined
  | VStr s =>
      if (k =? "length")%string then VNum (Z.of_nat (String.length s))
      else match key_index k with
           | Some i => char_at s i
           | None => VUndefined
           end
  | VArr xs =>
      if (k =? "length")%string then VNum (Z.of_nat (List.length xs))
      else match key_index k with
           | Some i => nth i xs VUndefined
           | None => VUndefined
           end
  | VObj ps =>
      match assoc k ps with
      | Some v => v
      | None => VUndefined
      end
  end.

(** [o.k]: a [TypeError] on [null] and [undefined]. *)
Definition get (o : value) (k : string) : result value :=
  if nullish o then Throw (type_error ("cannot read property " ++ k))
  else Ok (get_own o k).

(** [o?.k]. *)
Definition opt_get (o : value) (k : string) : value :=
  if nullish o then VUndefined else get_own o k.

(** [a ?? b]. *)
Definition coalesce (a b : value) : value :=
  if nullish a then b else a.

(** [k in o]: a [TypeError] unless [o] is an object or an array.  As in
    [get_own], [length] is the one inherited name accounted for; the program
    asks for ['conclusion'] only. *)
Definition has_property (k : string) (o : value) : result bool :=
  match o with
  | VObj ps => Ok (match assoc k ps with Some _ => true | None => false end)
  | VArr xs =>
      Ok (if (k =? "length")%string then true
          else match key_index k with
               | Some i => (i <? List.length xs)%nat
               | None => false
               end)
  | _ => Throw (type_error ("right-hand side of 'in' is not an object"))
  end.

(** [v === 'lit']. *)
Definition is_str (v : value) (lit : string) : bool :=
  match v with
  | VStr s => (s =? lit)%string
  | _ => false
  end.

Fixpoint join (sep : string) (ss : list string) : string :=
  match ss with
  | [] => ""
  | [s] => s
  | s :: ss' => s ++ sep ++ join sep ss'
  end.

(** Whether an object has an own property of that name. *)
Definition own (k : string) (ps : list (string * value)) : bool :=
  match assoc k ps with
  | Some _ => true
  | None => false
  end.

(** The integers a number holds exactly and prints digit for digit. *)
Definition MAX_SAFE_INTEGER : Z := 9007199254740991.

(** The texts of the elements of an array, left to right, as [join] asks for
    them: [null] gives the empty text, any other element its text by [f];
    the first throw ends it. *)
Definition each_text (f : value -> result string)
  : list value -> result (list string) :=
  fix each (l : list value) : result (list string) :=
    match l with
    | [] => Ok []
    | x :: l' =>
        match (if nullish x then Ok ""%string else f x) with
        | Ok s =>
            match each l' with
            | Ok ss => Ok (s :: ss)
            | Throw e => Throw e
            end
        | Throw e => Throw e
        end
    end.

Section Printing.

(** The text of a number beyond the safe integers (rounded digits, the
    exponent form from 1e21 on) is the engine's; [number_text n] stands for
    it.  [VNum n] is the number whose value is [n]. *)
Variable number_text : Z -> string.

Definition string_of_number (n : Z) : string :=
  if Z.abs n <=? MAX_SAFE_INTEGER then string_of_Z n else number_text n.

(** ToString, as a template literal applies it.  An object is converted
    through its [toString]: a parsed object that has a key of that name
    holds a value there, not a function, and the conversion throws a
    [TypeError]; any other object reads [[object Object]].  An array joins
    the texts of its elements, [null] counting as the empty text, and throws
    where one of them does. *)
Fixpoint to_string (v : value) : result string :=
  match v with
  | VUndefined => Ok "undefined"
  | VNull => Ok "null"
  | VBool true => Ok "true"
  | VBool false => Ok "false"
  | VNum n => Ok (string_of_number n)
  | VStr s => Ok s
  | VArr xs =>
      match each_text to_string xs with
      | Ok ss => Ok (join "," ss)
      | Throw e => Throw e
      end
  | VObj ps =>
      if own "toString" ps
      then Throw (type_error "cannot convert object to primitive value")
      else Ok "[object Object]"
  end.

End Printing.

(** The values ToString returns on. *)
Fixpoint printable (v : value) : bool :=
  match v with
  | VArr xs => forallb (fun x => nullish x || printable x) xs
  | VObj ps => negb (own "toString" ps)
  | _ => true
  end.

(** [s.slice(0, n)]. *)
Fixpoint take (n : nat) (s : string) : string :=
  match n, s with
  | O, _ => ""
  | S n', String c s' => String c (take n' s')
  | S _, EmptyString => ""
  end.

Arguments take : simpl never.

(** SameValueZero, the key comparison of [Map] and of [Array.includes].
    Objects and arrays compare by reference, and two nodes of a parsed
    document are never the same reference. *)
Definition same_value_zero (a b : value) : bool :=
  match a, b with
  | VUndefined, VUndefined => true
  | VNull, VNull => true
  | VBool x, VBool y => Bool.eqb x y
  | VNum x, VNum y => x =? y
  | VStr x, VStr y => (x =? y)%string
  | _, _ => false
  end.

(** The elements a [for ... of] visits; a value that is not iterable throws.
    A string yields its characters. *)
Fixpoint chars (s : string) : list value :=
  match s with
  | EmptyString => []
  | String c s' => VStr (String c EmptyString) :: chars s'
  end.

Definition iterate (v : value) : result (list value) :=
  match v with
  | VArr xs => Ok xs
  | VStr s => Ok (chars s)
  | _ => Throw (type_error "value is not iterable")
  end.

(** [arr.map(f)] for a callback that may throw; a value without a [map]
    method (anything but an array) gives a [TypeError]. *)
Fixpoint map_result {A B} (f : A -> result B) (xs : list A) : result (list B) :=
  match xs with
  | [] => Ok []
  | x :: xs' =>
      match f x with
      | Ok y =>
          match map_result f xs' with
          | Ok ys => Ok (y :: ys)
          | Throw e => Throw e
          end
      | Throw e => Throw e
      end
  end.

Definition array_map {B} (f : value -> result B) (v : value) : result (list B) :=
  match v with
  | VArr xs => map_result f xs
  | _ => Throw (type_error "map is not a function")
  end.

(** A [Map] in insertion order.  [set] on a present key replaces the value
    and keeps the entry's place. *)
Definition jsmap : Type := list (value * value).

Fixpoint map_set (k v : value) (m : jsmap) : jsmap :=
  match m with
  | [] => [(k, v)]
  | (k', v') :: m' =>
      if same_value_zero k' k then (k', v) :: m'
      else (k', v') :: map_set k v m'
  end.

End JS.

(* ================================================================== *)
(** * github.js : normalizer, classifier and API client *)
(* ================================================================== *)

Module GitHub.
Import JS.
Local Open Scope js_scope.

Definition GRAPHQL_URL : string := "https://api.github.com/graphql".
Definition NOTIFICATIONS_URL : string := "https://api.github.com/notifications".

Definition PR_QUERY : string := "query {
  viewer {
    pullRequests(first: 100, states: OPEN, orderBy: {field: UPDATED_AT, direction: DESC}) {
      nodes {
        number
        title
        url
        isDraft
        updatedAt
        repository { name, owner { login } }
        reviewDecision
        reviews(last: 10) { nodes { state, author { login } } }
        commits(last: 1) {
          nodes {
            commit {
              statusCheckRollup {
                state
                contexts(first: 30) {
                  nodes {
                    ... on CheckRun { name, status, conclusion, detailsUrl }
                    ... on StatusContext { context, state, targetUrl }
                  }
                }
              }
            }
          }
        }
      }
    }
  }
}".

(** ** Normalized records *)

(** The strings ['success'], ['failure'], ['pending'] and ['none']. *)
Inductive status : Type := success | failure | pending | none.

Record check : Type := mkCheck
  { check_name : value; check_status : status; check_url : value }.

Record reviewer : Type := mkReviewer { login : value; state : value }.

Record pr : Type := mkPR
  { number : value;
    title : value;
    url : value;
    isDraft : value;
    updatedAt : value;
    repo : string;
    repoName : value;
    reviewDecision : value;
    reviewers : list reviewer;
    ciStatus : status;
    checks : list check }.

(** ** normalizePR *)

(** The callback of [.map] over the rollup's contexts.  Once ['conclusion' in
    ctx] has returned, [ctx] is an object or an array and its properties can
    be read without a throw. *)
Definition check_of (ctx : value) : result check :=
  is_check_run <- has_property "conclusion" ctx ;;
  if is_check_run : bool then
    Ok {| check_name := get_own ctx "name";
          check_status :=
            if is_str (get_own ctx "status") "COMPLETED"
            then (if is_str (get_own ctx "conclusion") "SUCCESS"
                  then success else failure)
            else pending;
          check_url := get_own ctx "detailsUrl" |}
  else
    Ok {| check_name := get_own ctx "context";
          check_status :=
            if is_str (get_own ctx "state") "SUCCESS" then success
            else if is_str (get_own ctx "state") "FAILURE"
                    || is_str (get_own ctx "state") "ERROR" then failure
            else pending;
          check_url := get_own ctx "targetUrl" |}.

(** The body of the loop over the reviews: [r.author] throws on a [null]
    review; a review without a truthy [author.login] is passed over. *)
Definition review_step (reviewMap : jsmap) (r : value) : result jsmap :=
  author <- get r "author" ;;
  if truthy (opt_get author "login")
  then Ok (map_set (get_own author "login") (get_own r "state") reviewMap)
  else Ok reviewMap.

Fixpoint for_of {S} (body : S -> value -> result S) (xs : list value) (s : S)
  : result S :=
  match xs with
  | [] => Ok s
  | x :: xs' =>
      match body s x with
      | Ok s' => for_of body xs' s'
      | Throw e => Throw e
      end
  end.

(** [node.commits?.nodes?.[0]?.commit?.statusCheckRollup], for a [node] that
    is not nullish. *)
Definition rollup_of (node : value) : value :=
  let commit :=
    opt_get (opt_get (opt_get (get_own node "commits") "nodes") "0") "commit" in
  opt_get commit "statusCheckRollup".

Definition ci_of (rollup : value) : status :=
  if truthy rollup then
    let s := get_own rollup "state" in
    if is_str s "SUCCESS" then success
    else if is_str s "FAILURE" || is_str s "ERROR" then failure
    else pending
  else none.

(** [rollup?.contexts?.nodes ?? []] and [node.reviews?.nodes ?? []], the
    latter for a [node] that is not nullish. *)
Definition context_nodes (rollup : value) : value :=
  coalesce (opt_get (opt_get rollup "contexts") "nodes") (VArr []).

Definition review_nodes (node : value) : value :=
  coalesce (opt_get (get_own node "reviews") "nodes") (VArr []).

Section Normalize.

Variable number_text : Z -> string.

(** The template literal of [repo] converts the owner's login and then the
    repository's name to text; either conversion can throw. *)
Definition normalizePR (node : value) : result pr :=
  _ <- get node "commits" ;;
  let rollup := rollup_of node in
  checks <- array_map check_of (context_nodes rollup) ;;
  rs <- iterate (review_nodes node) ;;
  reviewMap <- for_of review_step rs [] ;;
  let reviewers := map (fun e => mkReviewer (fst e) (snd e)) reviewMap in
  let ciStatus := ci_of rollup in
  owner <- get (get_own node "repository") "owner" ;;
  owner_login <- get owner "login" ;;
  login_text <- to_string number_text owner_login ;;
  name_text <- to_string number_text
                 (get_own (get_own node "repository") "name") ;;
  Ok {| number := get_own node "number";
        title := get_own node "title";
        url := get_own node "url";
        isDraft := get_own node "isDraft";
        updatedAt := get_own node "updatedAt";
        repo := login_text ++ "/" ++ name_text;
        repoName := get_own (get_own node "repository") "name";
        reviewDecision := get_own node "reviewDecision";
        reviewers := reviewers;
        ciStatus := ciStatus;
        checks := checks |}.

End Normalize.

(** ** categorizePRs *)

Record categories : Type := mkCategories
  { approved : list pr;
    changesRequested : list pr;
    reviewRequired : list pr;
    draft : list pr }.

(** One turn of the loop: [push] appends at the end of the chosen array. *)
Definition categorize_step (c : categories) (p : pr) : categories :=
  if truthy (isDraft p) then
    mkCategories (approved c) (changesRequested c) (reviewRequired c)
                 (draft c ++ [p])
  else if is_str (reviewDecision p) "APPROVED" then
    mkCategories (approved c ++ [p]) (changesRequested c) (reviewRequired c)
                 (draft c)
  else if is_str (reviewDecision p) "CHANGES_REQUESTED" then
    mkCategories (approved c) (changesRequested c ++ [p]) (reviewRequired c)
                 (draft c)
  else
    mkCategories (approved c) (changesRequested c) (reviewRequired c ++ [p])
                 (draft c).

Definition categorizePRs (prs : list pr) : categories :=
  fold_left categorize_step prs (mkCategories [] [] [] []).

(** ** The client *)

(** A message handed to the transport: method, URL, the three request headers
    the client may set, and the body before serialization. *)
Record request : Type := mkRequest
  { req_method : string;
    req_url : string;
    authorization : string;
    accept : string;
    if_modified_since : option string;
    req_body : option value }.

(** What comes back from [send_and_read_async]: a transport failure, or a
    status code with the [Last-Modified] response header (if any), the body
    text, and what [JSON.parse] makes of that text ([None]: a
    [SyntaxError]). *)
Inductive response : Type :=
| NetworkFailure (msg : string)
| Response (statusCode : Z) (lastMod : option string) (text : string)
           (parsed : option value).

(** The instance fields of [GitHubClient].  [wire] is not a field of the
    class: it records, oldest first, the messages handed to the session, so
    that statements can speak about the requests made. *)
Record client : Type := mkClient
  { _lastNotificationPoll : option string;
    wire : list request }.

(** [constructor()]. *)
Definition new_client : client := mkClient None [].

(** A method of the client: reads and updates the instance, then returns or
    throws.  The instance state survives a throw. *)
Definition M (A : Type) : Type := client -> result A * client.

Definition ret {A} (a : A) : M A := fun c => (Ok a, c).
Definition throw {A} (e : exn) : M A := fun c => (Throw e, c).
Definition lift {A} (r : result A) : M A := fun c => (r, c).
Definition bindM {A B} (m : M A) (k : A -> M B) : M B :=
  fun c =>
    match m c with
    | (Ok a, c') => k a c'
    | (Throw e, c') => (Throw e, c')
    end.

Declare Scope client_scope.
Delimit Scope client_scope with client.
Notation "x <~ c ;; k" := (bindM c (fun x => k))
  (at level 61, c at next level, right associativity) : client_scope.
Local Open Scope client_scope.

(** Truthiness of a string-or-null. *)
Definition truthy_str (s : option string) : bool :=
  match s with
  | Some t => negb (t =? "")%string
  | None => false
  end.

(** [_sendAsync]: hand the message to the session and wait for the answer. *)
Definition _sendAsync (net : request -> response) (message : request)
  : client -> response * client :=
  fun c => (net message, mkClient (_lastNotificationPoll c) (wire c ++ [message])).

(** The message [_request] prepares: both fixed headers, the body when one
    is given, and [If-Modified-Since] on a GET to the notification endpoint
    once a [Last-Modified] has been seen. *)
Definition new_message (url token method : string) (body : option value)
    (c : client) : request :=
  {| req_method := method;
     req_url := url;
     authorization := "Bearer " ++ token;
     accept := "application/json";
     if_modified_since :=
       if (method =? "GET")%string
          && String.prefix NOTIFICATIONS_URL url
          && truthy_str (_lastNotificationPoll c)
       then _lastNotificationPoll c else None;
     req_body := body |}.

Definition _request (net : request -> response)
    (url token method : string) (body : option value) : M value :=
  fun c =>
    let message := new_message url token method body c in
    let (answer, c1) := _sendAsync net message c in
    match answer with
    | NetworkFailure msg => (Throw (mkExn GLibErrorC msg), c1)
    | Response statusCode lastMod text parsed =>
        if statusCode =? 304 then (Ok VNull, c1)
        else if (statusCode <? 200) || (statusCode >=? 300) then
          (Throw (mkExn ErrorC ("GitHub API " ++ string_of_Z statusCode ++ ": "
                                ++ take 200 text)), c1)
        else
          let c2 :=
            if String.prefix NOTIFICATIONS_URL url then
              if truthy_str lastMod then mkClient lastMod (wire c1) else c1
            else c1 in
          match parsed with
          | Some v => (Ok v, c2)
          | None => (Throw (mkExn SyntaxErrorC "JSON.parse"), c2)
          end
    end.

Section Fetch.

Variable number_text : Z -> string.

(** The message of the GraphQL error is made with a template literal, whose
    conversion of [data.errors[0].message] can throw in its turn. *)
Definition fetchPullRequests (net : request -> response) (token : string)
  : M (categories * list pr) :=
  data <~ _request net GRAPHQL_URL token "POST"
                   (Some (VObj [("query", VStr PR_QUERY)])) ;;
  errors <~ lift (get data "errors") ;;
  if truthy (opt_get errors "length") then
    first <~ lift (get errors "0") ;;
    msg <~ lift (get first "message") ;;
    text <~ lift (to_string number_text msg) ;;
    throw (mkExn ErrorC ("GraphQL error: " ++ text))
  else
    let nodes :=
      coalesce
        (opt_get (opt_get (opt_get (get_own data "data") "viewer")
                          "pullRequests") "nodes")
        (VArr []) in
    allPRs <~ lift (array_map (normalizePR number_text) nodes) ;;
    ret (categorizePRs allPRs, allPRs).

End Fetch.

(** [filterReasons.includes(x)] for the array of strings [get_strv]
    returns. *)
Definition includes (filterReasons : list string) (x : value) : bool :=
  existsb (fun f => same_value_zero (VStr f) x) filterReasons.

(** [arr.filter(f)] for a callback that may throw. *)
Fixpoint filter_result {A} (f : A -> result bool) (xs : list A)
  : result (list A) :=
  match xs with
  | [] => Ok []
  | x :: xs' =>
      match f x with
      | Ok keep =>
          match filter_result f xs' with
          | Ok ys => Ok (if keep then x :: ys else ys)
          | Throw e => Throw e
          end
      | Throw e => Throw e
      end
  end.

Definition array_filter (f : value -> result bool) (v : value)
  : result (list value) :=
  match v with
  | VArr xs => filter_result f xs
  | _ => Throw (type_error "filter is not a function")
  end.

(** The sentinel returned on 304. *)
Definition UNCHANGED : value := VNum (-1).

Definition fetchNotifications (net : request -> response) (token : string)
    (filterReasons : list string) : M value :=
  data <~ _request net NOTIFICATIONS_URL token "GET" None ;;
  match data with
  | VNull => ret UNCHANGED
  | _ =>
      match filterReasons with
      | _ :: _ =>
          notifications <~ lift (array_filter
              (fun n => (reason <- get n "reason" ;;
                         Ok (includes filterReasons reason))%js) data) ;;
          ret (VNum (Z.of_nat (List.length notifications)))
      | [] => lift (get data "length")
      end
  end.

End GitHub.

(* ================================================================== *)
(** * extension.js : what the menu is filled with *)
(* ================================================================== *)

Module Menu.
Import JS GitHub.
Local Open Scope list_scope.

Definition CI_ICONS (s : status) : string :=
  match s with
  | success => "✅"
  | failure => "❌"
  | pending => "⏳"
  | none => "⬜"
  end.

(** What the handler connected to [activate] does. *)
Inductive action : Type :=
| LaunchUri (uri : value)
| RefreshNow
| OpenPreferences.

(** A [PopupMenuItem] with a handler. *)
Record entry : Type := mkEntry { entry_text : string; entry_action : action }.

(** The items of the menu: a [PopupMenuItem] that is not reactive, one with
    a handler, a [PopupSubMenuMenuItem] with the items of its own menu, a
    [PopupSeparatorMenuItem]. *)
Inductive item : Type :=
| Inert (text : string)
| Active (e : entry)
| SubMenu (text : string) (children : list entry)
| Separator.

Record meta : Type := mkMeta
  { key : categories -> list pr; label : string; icon : string }.

Definition CATEGORY_META : list meta :=
  [ mkMeta approved "Approved" (CI_ICONS success);
    mkMeta changesRequested "Changes Requested" (CI_ICONS failure);
    mkMeta reviewRequired "Review Required" (CI_ICONS pending);
    mkMeta draft "Draft" "📝" ].

(** [_addFooter]. *)
Definition _addFooter : list item :=
  [ Separator;
    Active (mkEntry "Refresh Now" RefreshNow);
    Active (mkEntry "Preferences" OpenPreferences) ].

(** [_buildMenuLoading] and [_buildMenuError], after [removeAll]. *)
Definition _buildMenuLoading : list item := [Inert "Loading..."].

Definition _buildMenuError (msg : string) : list item :=
  Inert msg :: _addFooter.

Definition header (m : meta) (prs : list pr) : string :=
  (icon m ++ " " ++ label m ++ " (" ++ string_of_nat (List.length prs) ++ ")")%string.

Section Lines.

Variable number_text : Z -> string.

(** The line of one pull request.  The status is one of the four keys of
    [CI_ICONS], so the fallback of the lookup never applies.  The template
    literal converts the repository name and then the title to text, and
    throws where either conversion does. *)
Definition pr_item (p : pr) : result entry :=
  (repo_text <- to_string number_text (repoName p) ;;
   title_text <- to_string number_text (title p) ;;
   Ok (mkEntry (CI_ICONS (ciStatus p) ++ " " ++ repo_text ++ ": " ++ title_text)
               (LaunchUri (url p))))%js.

(** The inner loop: the lines added to the submenu, and the exception that
    ended the loop, if one did. *)
Fixpoint add_lines (prs : list pr) : list entry * option exn :=
  match prs with
  | [] => ([], None)
  | p :: prs' =>
      match pr_item p with
      | Ok e => let (es, thrown) := add_lines prs' in (e :: es, thrown)
      | Throw x => ([], Some x)
      end
  end.

(** The loop over [CATEGORY_META]: the items added and [totalPRs] so far.
    The submenu of a category is added to the menu before its lines are
    made, so it stays, with the lines made until then, when a line
    throws. *)
Fixpoint add_categories (c : categories) (metas : list meta)
    (acc : list item * nat) : (list item * nat) * option exn :=
  match metas with
  | [] => (acc, None)
  | m :: metas' =>
      match key m c with
      | [] => add_categories c metas' acc
      | prs =>
          let (lines, thrown) := add_lines prs in
          let acc' := (fst acc ++ [SubMenu (header m prs) lines],
                       (snd acc + List.length prs)%nat) in
          match thrown with
          | Some x => (acc', Some x)
          | None => add_categories c metas' acc'
          end
      end
  end.

(** [_buildMenu] on a closed menu, after [removeAll]: the items in the menu
    when it returns or throws, and the exception if it throws. *)
Definition _buildMenu (c : categories) : list item * option exn :=
  match add_categories c CATEGORY_META ([], O) with
  | ((added, totalPRs), None) =>
      (added
       ++ (if (totalPRs =? 0)%nat then [Inert "No open PRs"] else [])
       ++ _addFooter, None)
  | ((added, _), Some x) => (added, Some x)
  end.

End Lines.

(** The pull requests a menu lists, top to bottom. *)
Definition listed (its : list item) : list entry :=
  flat_map (fun i => match i with
                     | SubMenu _ children => children
                     | _ => []
                     end) its.

(** The submenus of a menu, top to bottom. *)
Definition submenus (its : list item) : list item :=
  filter (fun i => match i with SubMenu _ _ => true | _ => false end) its.

(** A pull request whose line can be made. *)
Definition line_prints (p : pr) : bool :=
  printable (repoName p) && printable (title p).

End Menu.

(* ================================================================== *)
(** * extension.js : the refresh cycle *)
(* ================================================================== *)

Module Extension.
Import JS GitHub.

(** What the dropdown shows: the initial placeholder ([_buildMenuLoading]),
    one inert line of text above the footer ([_buildMenuError]), or the
    categories ([_buildMenu], which renders its argument). *)
Inductive menu_view : Type :=
| LoadingMenu
| MessageMenu (msg : string)
| CategoryMenu (c : categories).

(** The fields of [GitHubPRButton] the refresh cycle touches.  [console] is
    not a field: it collects, oldest first, the lines sent to
    [console.error]. *)
Record button : Type := mkButton
  { _client : client;
    _lastCategories : option categories;
    _lastNotificationCount : value;
    badge_text : string;
    badge_visible : bool;
    menu : menu_view;
    console : list string }.

(** The button as [_init] leaves it before its first [_refresh]. *)
Definition init : button :=
  mkButton new_client None (VNum 0) "" false LoadingMenu [].

(** What one cycle meets outside the button: the keyring's answer to
    [password_lookup] (a throw, or the token, [null] when none is stored),
    the server, the configured notification filters, and whether the user
    holds the menu open. *)
Inductive lookup : Type :=
| LookupFails (msg : string)
| LookupReturns (token : option string).

Record cycle : Type := mkCycle
  { secret : lookup;
    net : request -> response;
    filters : list string;
    menu_isOpen : bool }.

Definition NO_TOKEN : string := "No token configured — open Preferences".
Definition TOKEN_READ_FAILED : string := "Failed to read token from keyring".

Definition console_error (line : string) (b : button) : button :=
  mkButton (_client b) (_lastCategories b) (_lastNotificationCount b)
           (badge_text b) (badge_visible b) (menu b) (console b ++ [line]).

Definition with_client (c : client) (b : button) : button :=
  mkButton c (_lastCategories b) (_lastNotificationCount b)
           (badge_text b) (badge_visible b) (menu b) (console b).

Definition with_menu (m : menu_view) (b : button) : button :=
  mkButton (_client b) (_lastCategories b) (_lastNotificationCount b)
           (badge_text b) (badge_visible b) m (console b).

Definition _buildMenuError (msg : string) (b : button) : button :=
  with_menu (MessageMenu msg) b.

Section Refresh.

(** The relational operators of [count >= 0], [count > 0] and [count > 99]
    convert a string operand to a number first.  That conversion is the
    engine's; [string_cmp s k] stands for the comparison of the number read
    from [s] with the integer [k], [None] when [s] reads as [NaN]. *)
Variable string_cmp : string -> Z -> option comparison.

(** The engine's text of a number beyond the safe integers, as in
    [JS.to_string]. *)
Variable number_text : Z -> string.

(** [_buildMenu] leaves an open menu alone.  On a closed one it empties the
    menu and fills it; the template literal of a line can throw, and the
    menu then keeps what it had been given until then. *)
Definition _buildMenu (isOpen : bool) (c : categories) (b : button)
  : button * option exn :=
  if isOpen then (b, None)
  else (with_menu (CategoryMenu c) b, snd (Menu._buildMenu number_text c)).

(** ToNumber of [v] compared with the integer [k].  An array or an object
    is converted to a primitive first, which for an array is its text and
    can throw as [JS.to_string] does. *)
Definition compare_num (v : value) (k : Z) : result (option comparison) :=
  match v with
  | VUndefined => Ok None
  | VNull => Ok (Some (0 ?= k))
  | VBool b => Ok (Some ((if b then 1 else 0) ?= k))
  | VNum n => Ok (Some (n ?= k))
  | VStr s => Ok (string_cmp s k)
  | VArr _ =>
      match to_string number_text v with
      | Ok s => Ok (string_cmp s k)
      | Throw e => Throw e
      end
  | VObj _ =>
      match to_string number_text v with
      | Ok _ => Ok None
      | Throw e => Throw e
      end
  end.

(** [v >= k] and [v > k]. *)
Definition ge (v : value) (k : Z) : result bool :=
  match compare_num v k with
  | Ok (Some Eq) | Ok (Some Gt) => Ok true
  | Ok _ => Ok false
  | Throw e => Throw e
  end.

Definition gt (v : value) (k : Z) : result bool :=
  match compare_num v k with
  | Ok (Some Gt) => Ok true
  | Ok _ => Ok false
  | Throw e => Throw e
  end.

Definition _updateBadge (count : value) (b : button) : result button :=
  match gt count 0 with
  | Ok true =>
      match gt count 99 with
      | Ok big =>
          match (if big then Ok "99+"%string else to_string number_text count) with
          | Ok text =>
              Ok (mkButton (_client b) (_lastCategories b)
                           (_lastNotificationCount b) text true
                           (menu b) (console b))
          | Throw e => Throw e
          end
      | Throw e => Throw e
      end
  | Ok false =>
      Ok (mkButton (_client b) (_lastCategories b) (_lastNotificationCount b)
                   (badge_text b) false (menu b) (console b))
  | Throw e => Throw e
  end.

(** The first [try] of [_refresh], once a token is at hand.  A throw of
    [_buildMenu] lands in the same [catch] as a throw of the fetch; the
    categories are set by then, so only the console line is written. *)
Definition refresh_prs (env : cycle) (token : string) (b : button) : button :=
  match fetchPullRequests number_text (net env) token (_client b) with
  | (Ok (categories, _), c) =>
      let b1 := with_client c b in
      let b2 := mkButton (_client b1) (Some categories)
                  (_lastNotificationCount b1) (badge_text b1)
                  (badge_visible b1) (menu b1) (console b1) in
      match _buildMenu (menu_isOpen env) categories b2 with
      | (b3, None) => b3
      | (b3, Some e) =>
          console_error ("[GitHub PR Status] PR fetch failed: " ++ message e) b3
      end
  | (Throw e, c) =>
      let b1 := console_error ("[GitHub PR Status] PR fetch failed: " ++ message e)
                  (with_client c b) in
      match _lastCategories b1 with
      | None => _buildMenuError ("Error: " ++ take 80 (message e)) b1
      | Some _ => b1
      end
  end.

(** The second [try].  The comparison [count >= 0] and [_updateBadge] can
    throw on a count that is no number; the [catch] then writes its line,
    after the count was cached if the throw came from [_updateBadge]. *)
Definition refresh_notifications (env : cycle) (token : string) (b : button)
  : button :=
  match fetchNotifications (net env) token (filters env) (_client b) with
  | (Ok count, c) =>
      let b1 := with_client c b in
      match ge count 0 with
      | Ok true =>
          let b2 := mkButton (_client b1) (_lastCategories b1) count
                      (badge_text b1) (badge_visible b1) (menu b1) (console b1) in
          match _updateBadge count b2 with
          | Ok b3 => b3
          | Throw e =>
              console_error
                ("[GitHub PR Status] Notification fetch failed: " ++ message e) b2
          end
      | Ok false => b1
      | Throw e =>
          console_error
            ("[GitHub PR Status] Notification fetch failed: " ++ message e) b1
      end
  | (Throw e, c) =>
      console_error ("[GitHub PR Status] Notification fetch failed: " ++ message e)
        (with_client c b)
  end.

(** [_updateBadge(0)] stands outside every [try]; were it to throw, the
    cycle would end there, with the line of [NO_TOKEN] shown. *)
Definition _refresh (env : cycle) (b : button) : button :=
  match secret env with
  | LookupFails msg =>
      _buildMenuError TOKEN_READ_FAILED
        (console_error ("[GitHub PR Status] Failed to read token: " ++ msg) b)
  | LookupReturns token =>
      if truthy_str token then
        let t := match token with Some t => t | None => "" end in
        refresh_notifications env t (refresh_prs env t b)
      else
        match _updateBadge (VNum 0) (_buildMenuError NO_TOKEN b) with
        | Ok b' => b'
        | Throw _ => _buildMenuError NO_TOKEN b
        end
  end.

(** Successive cycles, oldest first. *)
Definition run (envs : list cycle) (b : button) : button :=
  fold_left (fun b env => _refresh env b) envs b.

End Refresh.

End Extension.

(* ================================================================== *)
(** * Vocabulary of the specification *)
(* ================================================================== *)

Module Spec.
Import JS GitHub Extension.
Local Open Scope list_scope.

(** The four buckets of the classifier. *)
Inductive bucket : Type := Approved | ChangesRequested | ReviewRequired | Draft.

Definition bucket_eqb (a b : bucket) : bool :=
  match a, b with
  | Approved, Approved | ChangesRequested, ChangesRequested
  | ReviewRequired, ReviewRequired | Draft, Draft => true
  | _, _ => false
  end.

Definition content (b : bucket) (c : categories) : list pr :=
  match b with
  | Approved => approved c
  | ChangesRequested => changesRequested c
  | ReviewRequired => reviewRequired c
  | Draft => draft c
  end.

(** The priority rule as the specification words it: draft first, then
    APPROVED, then CHANGES_REQUESTED, everything else review required.  The
    draft flag counts as set when it is truthy. *)
Definition priority_bucket (p : pr) : bucket :=
  if truthy (isDraft p) then Draft
  else if is_str (reviewDecision p) "APPROVED" then Approved
  else if is_str (reviewDecision p) "CHANGES_REQUESTED" then ChangesRequested
  else ReviewRequired.

(** The shape of a node of the answer to [PR_QUERY]: an object whose
    [repository] and its [owner] are objects, with a name and a login that
    ToString returns on (strings, in the answer); the reviews, when the node
    has any, are objects; so are the contexts of the rollup, when there is
    one. *)
Definition is_obj (v : value) : bool :=
  match v with
  | VObj _ => true
  | _ => false
  end.

Definition array_of_objects (v : value) : bool :=
  match v with
  | VArr xs => forallb is_obj xs
  | _ => false
  end.

Definition raw_pr_node (node : value) : bool :=
  is_obj node
  && array_of_objects (context_nodes (rollup_of node))
  && array_of_objects (review_nodes node)
  && is_obj (get_own node "repository")
  && is_obj (get_own (get_own node "repository") "owner")
  && printable (get_own (get_own (get_own node "repository") "owner") "login")
  && printable (get_own (get_own node "repository") "name").

(** The identity of a review's author, [r.author?.login]. *)
Definition author_login (r : value) : value :=
  opt_get (get_own r "author") "login".

(** A review without an author identity: the author or its login is absent
    or [null]. *)
Definition no_identity (r : value) : bool := nullish (author_login r).

(** What one turn of the review loop does to the map when the review is not
    [null]. *)
Definition record_review (reviewMap : jsmap) (r : value) : jsmap :=
  if truthy (author_login r)
  then map_set (author_login r) (get_own r "state") reviewMap
  else reviewMap.

(** No two entries of a map share a key. *)
Definition distinct_keys (m : jsmap) : Prop :=
  ForallOrdPairs (fun a b => same_value_zero (fst a) (fst b) = false) m.

Definition as_reviewers (reviewMap : jsmap) : list reviewer :=
  map (fun e => mkReviewer (fst e) (snd e)) reviewMap.

(** What the loop maintains between the reviews [rs] seen so far and the
    map [m] built from them. *)
Record review_invariant (rs : list value) (m : jsmap) : Prop :=
  { inv_distinct : distinct_keys m;
    inv_truthy : forall e, In e m -> truthy (fst e) = true;
    inv_last : forall e, In e m ->
      exists pre r post,
        rs = pre ++ r :: post
        /\ author_login r = fst e
        /\ get_own r "state" = snd e
        /\ Forall (fun r' => same_value_zero (author_login r') (fst e) = false)
                  post;
    inv_covers : forall r, In r rs -> truthy (author_login r) = true ->
      exists e, In e m /\ fst e = author_login r }.

(** A notification counts when its [reason] is one of the enabled ones. *)
Definition reason_enabled (enabledReasons : list string) (n : value) : bool :=
  match get_own n "reason" with
  | VStr s => existsb (fun f => (f =? s)%string) enabledReasons
  | _ => false
  end.

(** The three failure kinds the specification names for a pull-request
    fetch. *)
Inductive failure_kind : Type := AuthError | GraphQLError | TransportError.

(** The state the button reports to the user: loading, unconfigured, an
    error with its message, or populated.  The menu carries no flag; the
    unconfigured state is the one line [NO_TOKEN]. *)
Inductive view_state : Type :=
| Loading
| Unconfigured
| ErrorState (msg : string)
| Populated (c : categories).

Definition view_of (m : menu_view) : view_state :=
  match m with
  | LoadingMenu => Loading
  | MessageMenu msg =>
      if (msg =? NO_TOKEN)%string then Unconfigured else ErrorState msg
  | CategoryMenu c => Populated c
  end.

(** A cycle in which a token is at hand and the pull-request fetch throws. *)
Definition pr_fetch_fails (number_text : Z -> string) (env : cycle) : Prop :=
  exists t e,
    secret env = LookupReturns (Some t) /\ t <> ""%string
    /\ forall c, fst (fetchPullRequests number_text (net env) t c) = Throw e.

End Spec.

(* ================================================================== *)
(** * Sample documents *)
(* ================================================================== *)

Module Samples.
Import JS GitHub.

Definition repository_of (owner name : string) : string * value :=
  ("repository", VObj [("name", VStr name); ("owner", VObj [("login", VStr owner)])]).

Definition review (author st : string) : value :=
  VObj [("state", VStr st); ("author", VObj [("login", VStr author)])].

(** A node with neither commits nor reviews. *)
Definition bare_node : value :=
  VObj [("number", VNum 7); ("title", VStr "Fix"); ("isDraft", VBool false);
        repository_of "octo" "demo"; ("reviewDecision", VNull)].

(** A node whose head commit has a rollup with a state and [contexts: null]. *)
Definition rollup_without_contexts : value :=
  VObj [("number", VNum 8); ("isDraft", VBool false);
        repository_of "octo" "demo";
        ("commits", VObj [("nodes", VArr [VObj [("commit",
           VObj [("statusCheckRollup",
                  VObj [("state", VStr "SUCCESS"); ("contexts", VNull)])])]])])].

(** The review list of the specification: A then B then A again. *)
Definition thrice_reviewed : value :=
  VObj [("number", VNum 9); repository_of "octo" "demo";
        ("reviews", VObj [("nodes",
           VArr [review "A" "X"; review "B" "Y"; review "A" "Z"])])].

(** A review list with an authorless review between two reviews of A. *)
Definition ghost_reviewed : value :=
  VObj [("number", VNum 10); repository_of "octo" "demo";
        ("reviews", VObj [("nodes",
           VArr [review "A" "X";
                 VObj [("state", VStr "Y"); ("author", VNull)];
                 VObj [("state", VStr "W")]])])].

(** A node with five contexts: three check runs (passed, failed, running)
    and two status contexts (errored, pending), under a failed rollup. *)
Definition check_run (name st : string) (conclusion : value) : value :=
  VObj [("name", VStr name); ("status", VStr st); ("conclusion", conclusion);
        ("detailsUrl", VStr "https://ci.example/run")].

Definition status_context (context st : string) : value :=
  VObj [("context", VStr context); ("state", VStr st);
        ("targetUrl", VStr "https://ci.example/status")].

Definition checked_node : value :=
  VObj [("number", VNum 11); ("title", VStr "Checks"); ("isDraft", VBool true);
        repository_of "octo" "demo"; ("reviewDecision", VStr "APPROVED");
        ("commits", VObj [("nodes", VArr [VObj [("commit",
           VObj [("statusCheckRollup",
                  VObj [("state", VStr "FAILURE");
                        ("contexts", VObj [("nodes",
                           VArr [check_run "build" "COMPLETED" (VStr "SUCCESS");
                                 check_run "lint" "COMPLETED" (VStr "FAILURE");
                                 check_run "e2e" "IN_PROGRESS" VNull;
                                 status_context "ci/legacy" "ERROR";
                                 status_context "ci/new" "PENDING"])])])])]])])].

(** A server that gives every request the same answer. *)
Definition answering (statusCode : Z) (lastMod : option string) (text : string)
    (parsed : option value) : request -> response :=
  fun _ => Response statusCode lastMod text parsed.

Definition notification (reason : string) : value :=
  VObj [("id", VStr "1"); ("reason", VStr reason)].

(** The notification feed of the specification. *)
Definition three_notifications : list value :=
  [notification "mention"; notification "review_requested";
   notification "review_requested"].

(** A GraphQL answer carrying an error. *)
Definition graphql_failure : value :=
  VObj [("errors", VArr [VObj [("message", VStr "boom")]])].

(** A GraphQL answer with one approved pull request. *)
Definition one_approved : value :=
  VObj [("data", VObj [("viewer", VObj [("pullRequests", VObj [("nodes",
     VArr [VObj [("number", VNum 7); ("isDraft", VBool false);
                 repository_of "octo" "demo";
                 ("reviewDecision", VStr "APPROVED")]])])])])].

(** Cycles: the token ["t"] is in the keyring, no filter is configured, the
    menu is closed, and the server answers every request alike. *)
Definition cycle_answering (statusCode : Z) (lastMod : option string)
    (text : string) (parsed : option value) : Extension.cycle :=
  Extension.mkCycle (Extension.LookupReturns (Some "t"%string))
                    (answering statusCode lastMod text parsed) [] false.

Definition cycle_ok : Extension.cycle :=
  cycle_answering 200 None "{}" (Some one_approved).

Definition cycle_down : Extension.cycle :=
  cycle_answering 503 None "Service Unavailable" None.

Definition cycle_not_modified : Extension.cycle :=
  cycle_answering 304 None "" None.

(** A cycle in which the notification feed is answered with a
    [Last-Modified] header. *)
Definition cycle_dated : Extension.cycle :=
  cycle_answering 200 (Some "Mon, 02 Nov 2026 10:00:00 GMT"%string) "[]"
                  (Some (VArr [])).

(** A cycle in which the keyring cannot be read. *)
Definition cycle_locked : Extension.cycle :=
  Extension.mkCycle (Extension.LookupFails "keyring is locked")
                    (answering 200 None "{}" (Some one_approved)) [] false.

(** A cycle in which the feed of the specification is counted under the
    filter [review_requested]; the same server answers the query, to which
    the feed means no pull request. *)
Definition cycle_counting : Extension.cycle :=
  Extension.mkCycle (Extension.LookupReturns (Some "t"%string))
                    (answering 200 None "[...]" (Some (VArr three_notifications)))
                    ["review_requested"%string] false.

(** A cycle with an empty keyring and a server that would answer. *)
Definition cycle_no_token : Extension.cycle :=
  Extension.mkCycle (Extension.LookupReturns None)
                    (answering 200 None "{}" (Some one_approved)) [] false.

(** Large numbers written digit for digit: a stand-in for the engine's
    text of them. *)
Definition in_full : Z -> string := string_of_Z.

(** Pull requests as [normalizePR] returns them: an approved one, a draft,
    and one whose title is an object with a [toString] key of its own. *)
Definition pr_fix : pr :=
  mkPR (VNum 7) (VStr "Fix") (VStr "https://github.com/octo/demo/pull/7")
       (VBool false) VUndefined "octo/demo" (VStr "demo") (VStr "APPROVED")
       [] success [].

Definition pr_wip : pr :=
  mkPR (VNum 8) (VStr "WIP") (VStr "https://github.com/octo/demo/pull/8")
       (VBool true) VUndefined "octo/demo" (VStr "demo") VNull [] none [].

Definition pr_untitled : pr :=
  mkPR (VNum 9) (VObj [("toString", VNull)])
       (VStr "https://github.com/octo/demo/pull/9")
       (VBool false) VUndefined "octo/demo" (VStr "demo") (VStr "APPROVED")
       [] none [].

(** A node whose owner login is an object with a [toString] key of its
    own. *)
Definition unprintable_login_node : value :=
  VObj [("repository",
         VObj [("owner", VObj [("login", VObj [("toString", VNum 1)])]);
               ("name", VStr "demo")])].

(** No string reads as a number: a stand-in for the engine's conversion. *)
Definition never_a_number : string -> Z -> option comparison :=
  fun _ _ => None.

End Samples.

(* ================================================================== *)
(** * Further vocabulary: shapes and outcomes *)
(* ================================================================== *)

Module Shape.
Import JS GitHub.
Local Open Scope list_scope.

(** The values ['conclusion' in ctx] accepts. *)
Definition has_members (v : value) : bool :=
  match v with
  | VObj _ | VArr _ => true
  | _ => false
  end.

(** What [.map(ctx => ...)] goes through without a throw. *)
Definition contexts_ok (v : value) : bool :=
  match v with
  | VArr xs => forallb has_members xs
  | _ => false
  end.

(** What the review loop goes through without a throw: an array without
    [null] in it, or a string. *)
Definition reviews_ok (v : value) : bool :=
  match v with
  | VArr xs => forallb (fun r => negb (nullish r)) xs
  | VStr _ => true
  | _ => false
  end.

(** The nodes [normalizePR] returns on: not nullish, with contexts and
    reviews the loops go through, a repository and an owner to read from, and
    a login and a name ToString returns on. *)
Definition normalizable (node : value) : bool :=
  negb (nullish node)
  && contexts_ok (context_nodes (rollup_of node))
  && reviews_ok (review_nodes node)
  && negb (nullish (get_own node "repository"))
  && negb (nullish (get_own (get_own node "repository") "owner"))
  && printable (get_own (get_own (get_own node "repository") "owner") "login")
  && printable (get_own (get_own node "repository") "name").

(** How a check relates to the context it was made from: a context with a
    [conclusion] key is read as a check run, any other as a status
    context. *)
Definition check_rel (ctx : value) (c : check) : Prop :=
  check_status c <> none
  /\ match has_property "conclusion" ctx with
     | Ok true =>
         check_name c = get_own ctx "name"
         /\ check_url c = get_own ctx "detailsUrl"
         /\ (check_status c = success <->
             get_own ctx "status" = VStr "COMPLETED"
             /\ get_own ctx "conclusion" = VStr "SUCCESS")
         /\ (check_status c = failure <->
             get_own ctx "status" = VStr "COMPLETED"
             /\ get_own ctx "conclusion" <> VStr "SUCCESS")
         /\ (check_status c = pending <->
             get_own ctx "status" <> VStr "COMPLETED")
     | Ok false =>
         check_name c = get_own ctx "context"
         /\ check_url c = get_own ctx "targetUrl"
         /\ (check_status c = success <-> get_own ctx "state" = VStr "SUCCESS")
         /\ (check_status c = failure <->
             get_own ctx "state" = VStr "FAILURE"
             \/ get_own ctx "state" = VStr "ERROR")
         /\ (check_status c = pending <->
             get_own ctx "state" <> VStr "SUCCESS"
             /\ get_own ctx "state" <> VStr "FAILURE"
             /\ get_own ctx "state" <> VStr "ERROR")
     | Throw _ => False
     end.

(** An exception raised by the engine itself on a misuse of a value. *)
Definition is_type_error (e : exn) : Prop := exn_cls e = TypeErrorC.

(** [data.data?.viewer?.pullRequests?.nodes ?? []]. *)
Definition pr_nodes (data : value) : value :=
  coalesce
    (opt_get (opt_get (opt_get (get_own data "data") "viewer") "pullRequests")
             "nodes")
    (VArr []).

(** [data.errors?.length] is falsy: the answer reports no error. *)
Definition no_errors (data : value) : bool :=
  negb (truthy (opt_get (get_own data "errors") "length")).

End Shape.

(* ================================================================== *)
(** * extension.js : the items behind the states of the menu *)
(* ================================================================== *)

Module MenuItems.
Import JS GitHub Extension Menu.
Local Open Scope list_scope.

(** The items in the menu in each of its states.  For [CategoryMenu c] they
    are what [_buildMenu] had added when it returned or threw. *)
Definition items_of (number_text : Z -> string) (m : menu_view) : list item :=
  match m with
  | LoadingMenu => Menu._buildMenuLoading
  | MessageMenu msg => Menu._buildMenuError msg
  | CategoryMenu c => fst (Menu._buildMenu number_text c)
  end.

(** A category that holds a pull request: [prs.length === 0] is false. *)
Definition holds (c : categories) (m : meta) : bool :=
  match key m c with
  | [] => false
  | _ :: _ => true
  end.

(** The entries of [CATEGORY_META] that get a submenu. *)
Definition shown (c : categories) : list meta := filter (holds c) CATEGORY_META.

(** Every line of every category can be made. *)
Definition all_print (c : categories) : bool :=
  forallb (fun m => forallb line_prints (key m c)) CATEGORY_META.

(** [it] is the submenu of the category of [m]: headed by the icon, the
    label and the size of that category, and holding the lines of its pull
    requests in order. *)
Definition submenu_of (number_text : Z -> string) (c : categories) (m : meta)
    (it : item) : Prop :=
  exists lines,
    map_result (pr_item number_text) (key m c) = Ok lines
    /\ it = SubMenu (header m (key m c)) lines.

Definition is_submenu (it : item) : bool :=
  match it with
  | SubMenu _ _ => true
  | _ => false
  end.

End MenuItems.

(* ================================================================== *)
(** * extension.js : the timer *)
(* ================================================================== *)

Module Timer.
Local Open Scope list_scope.

(** The GLib main loop as far as the button deals with it: the timeout
    sources attached, each with its id and its interval in seconds, and the
    id given out last.  [timeout_add_seconds] attaches a source under a new
    id, which is never 0; [source_remove] detaches the source of an id. *)
Record main_loop : Type := mkLoop
  { sources : list (nat * Z); last_id : nat }.

Definition timeout_add_seconds (interval : Z) (l : main_loop)
  : nat * main_loop :=
  let id := S (last_id l) in
  (id, mkLoop (sources l ++ [(id, interval)]) id).

Definition source_remove (id : nat) (l : main_loop) : main_loop :=
  mkLoop (filter (fun s => negb (Nat.eqb (fst s) id)) (sources l)) (last_id l).

(** The button's [_timerId], the value of the setting [refresh-interval],
    and the loop. *)
Record timing : Type := mkTiming
  { _timerId : option nat; refresh_interval : Z; loop : main_loop }.

(** [if (this._timerId)]. *)
Definition armed (t : timing) : option nat :=
  match _timerId t with
  | Some id => if Nat.eqb id 0 then None else Some id
  | None => None
  end.

Definition _startTimer (t : timing) : timing :=
  let interval := refresh_interval t in
  let (id, l) := timeout_add_seconds interval (loop t) in
  mkTiming (Some id) (refresh_interval t) l.

(** The lines [destroy] and [_restartTimer] share. *)
Definition cancel (t : timing) : timing :=
  match armed t with
  | Some id => mkTiming None (refresh_interval t) (source_remove id (loop t))
  | None => t
  end.

Definition _restartTimer (t : timing) : timing := _startTimer (cancel t).

(** The timer's part of [destroy]. *)
Definition destroy (t : timing) : timing := cancel t.

(** The setting changes to [seconds]; the handler connected to
    [changed::refresh-interval] runs. *)
Definition interval_changed (t : timing) (seconds : Z) : timing :=
  _restartTimer (mkTiming (_timerId t) seconds (loop t)).

(** The timer's part of [_init], in a loop that may hold other sources. *)
Definition init (seconds : Z) (l : main_loop) : timing :=
  _startTimer (mkTiming None seconds l).

(** No source of the loop has an id above the last one given out. *)
Definition consistent (l : main_loop) : Prop :=
  Forall (fun s => (fst s <= last_id l)%nat) (sources l).

(** What holds between the loop [l0] the button found and its timing from
    [init] on: its one source sits after those of [l0], under an id that is
    not 0 and lies above all of them, with the interval of the setting. *)
Definition one_timer (l0 : main_loop) (t : timing) : Prop :=
  exists id,
    id <> O
    /\ _timerId t = Some id
    /\ Forall (fun s => (fst s < id)%nat) (sources l0)
    /\ last_id (loop t) = id
    /\ sources (loop t) = sources l0 ++ [(id, refresh_interval t)].

End Timer.

(* ================================================================== *)
(** * prefs.js : the switches of the notification filter *)
(* ================================================================== *)

Module Prefs.
Local Open Scope list_scope.

(** A [Set] of strings in insertion order. *)
Fixpoint set_add (k : string) (s : list string) : list string :=
  match s with
  | [] => [k]
  | x :: s' => if (x =? k)%string then s else x :: set_add k s'
  end.

Definition set_delete (k : string) (s : list string) : list string :=
  filter (fun x => negb (x =? k)%string) s.

(** [new Set(array)]. *)
Definition new_Set (l : list string) : list string :=
  fold_left (fun s k => set_add k s) l [].

(** The handler of [notify::active] on the switch of [key]: what it writes
    to [notification-filters], given what it reads there. *)
Definition on_switch (active : bool) (key : string) (setting : list string)
  : list string :=
  let current := new_Set setting in
  if active then set_add key current else set_delete key current.

End Prefs.

(* ================================================================== *)
(** * Facts about the JavaScript operations *)
(* ================================================================== *)

Module JSFacts.
Import JS.

Lemma is_str_spec v lit : is_str v lit = true <-> v = VStr lit.
Proof.
  destruct v; simpl; split; intro H; try discriminate.
  - apply String.eqb_eq in H. now subst.
  - injection H as ->. apply String.eqb_refl.
Qed.

Lemma is_str_false v lit : is_str v lit = false <-> v <> VStr lit.
Proof.
  split.
  - intros H E. apply is_str_spec in E. congruence.
  - intro H. destruct (is_str v lit) eqn:E; [|reflexivity].
    apply is_str_spec in E. contradiction.
Qed.

Lemma same_value_zero_eq a b : same_value_zero a b = true -> a = b.
Proof.
  destruct a, b; simpl; intro H; try discriminate; try reflexivity.
  - apply Bool.eqb_prop in H. now subst.
  - apply Z.eqb_eq in H. now subst.
  - apply String.eqb_eq in H. now subst.
Qed.

Lemma same_value_zero_sym a b : same_value_zero a b = same_value_zero b a.
Proof.
  destruct a, b; simpl; try reflexivity.
  - now destruct b, b0.
  - apply Z.eqb_sym.
  - apply String.eqb_sym.
Qed.

Lemma same_value_zero_truthy a b :
  same_value_zero a b = true -> truthy a = truthy b.
Proof. intro H. now rewrite (same_value_zero_eq _ _ H). Qed.

(** Induction on a value, through the elements of an array. *)
Lemma value_ind_elements (P : value -> Prop) :
  P VUndefined -> P VNull -> (forall b, P (VBool b)) -> (forall n, P (VNum n)) ->
  (forall s, P (VStr s)) ->
  (forall xs, Forall P xs -> P (VArr xs)) ->
  (forall ps, P (VObj ps)) ->
  forall v, P v.
Proof.
  intros Hu Hn Hb Hz Hs Ha Ho. fix IH 1.
  intros [ | |b|n|s|xs|ps];
    [exact Hu|exact Hn|apply Hb|apply Hz|apply Hs| |apply Ho].
  apply Ha. revert xs. fix IHl 1. intros [|x xs]; constructor.
  - apply IH.
  - apply IHl.
Qed.

(** ToString returns exactly on the printable values and throws a
    [TypeError] on the others, whatever the engine's text of large
    numbers. *)
Lemma to_string_outcome number_text v :
  (printable v = true -> exists s, to_string number_text v = Ok s)
  /\ (printable v = false ->
      exists e, to_string number_text v = Throw e /\ exn_cls e = TypeErrorC).
Proof.
  induction v as [ | |b|n|s|xs IH|ps] using value_ind_elements;
    try (split; [intros _; eexists; reflexivity|discriminate]).
  - destruct b; (split; [intros _; eexists; reflexivity|discriminate]).
  - assert (Hl : (forallb (fun x => nullish x || printable x) xs = true ->
                  exists ss, each_text (to_string number_text) xs = Ok ss)
                 /\ (forallb (fun x => nullish x || printable x) xs = false ->
                     exists e, each_text (to_string number_text) xs = Throw e
                               /\ exn_cls e = TypeErrorC)).
    { induction IH as [|x xs [Hok Hno] _ [IHok IHno]]; simpl.
      - split; [now exists []|discriminate].
      - destruct (nullish x); simpl.
        + split; intro H.
          * destruct (IHok H) as [ss ->]. now eexists.
          * destruct (IHno H) as (e & -> & He). now exists e.
        + destruct (printable x); simpl.
          * destruct (Hok eq_refl) as [s ->]. split; intro H.
            -- destruct (IHok H) as [ss ->]. now eexists.
            -- destruct (IHno H) as (e & -> & He). now exists e.
          * destruct (Hno eq_refl) as (e & -> & He).
            split; [discriminate|]. intros _. now exists e. }
    destruct Hl as [Hok Hno]. simpl. split; intro H.
    + destruct (Hok H) as [ss ->]. now eexists.
    + destruct (Hno H) as (e & -> & He). now exists e.
  - simpl. destruct (own "toString" ps); simpl.
    + split; [discriminate|]. intros _. eexists. split; reflexivity.
    + split; [|discriminate]. intros _. now eexists.
Qed.

Lemma to_string_printable number_text v :
  printable v = true -> exists s, to_string number_text v = Ok s.
Proof. apply to_string_outcome. Qed.

Lemma to_string_string number_text s : to_string number_text (VStr s) = Ok s.
Proof. reflexivity. Qed.

End JSFacts.

(* ================================================================== *)
(** * Properties of the classifier *)
(* ================================================================== *)

Module ClassifierProofs.
Import JS GitHub Spec JSFacts.
Local Open Scope list_scope.

Lemma bucket_eqb_refl b : bucket_eqb b b = true.
Proof. destruct b; reflexivity. Qed.

Lemma bucket_eqb_eq a b : bucket_eqb a b = true <-> a = b.
Proof. destruct a, b; simpl; split; intro H; congruence. Qed.

(** One turn of the loop appends the record to the bucket the rule names and
    leaves the other three alone. *)
Lemma categorize_step_content c p b :
  content b (categorize_step c p)
  = content b c ++ (if bucket_eqb (priority_bucket p) b then [p] else []).
Proof.
  unfold categorize_step, priority_bucket.
  destruct (truthy (isDraft p));
    [|destruct (is_str (reviewDecision p) "APPROVED");
      [|destruct (is_str (reviewDecision p) "CHANGES_REQUESTED")]];
    destruct b; simpl; now rewrite ?app_nil_r.
Qed.

Lemma categorize_fold_content prs : forall c b,
  content b (fold_left categorize_step prs c)
  = content b c ++ filter (fun p => bucket_eqb (priority_bucket p) b) prs.
Proof.
  induction prs as [|p prs IH]; intros c b; simpl.
  - now rewrite app_nil_r.
  - rewrite IH, categorize_step_content.
    destruct (bucket_eqb (priority_bucket p) b); simpl.
    + now rewrite <- app_assoc.
    + now rewrite app_nil_r.
Qed.

(** Splitting a list by a four-valued key loses and repeats nothing. *)
Lemma four_way_permutation (f : pr -> bucket) (l : list pr) :
  Permutation l
    (filter (fun p => bucket_eqb (f p) Approved) l
     ++ filter (fun p => bucket_eqb (f p) ChangesRequested) l
     ++ filter (fun p => bucket_eqb (f p) ReviewRequired) l
     ++ filter (fun p => bucket_eqb (f p) Draft) l).
Proof.
  induction l as [|p l IH]; simpl; [constructor|].
  destruct (f p); simpl.
  - now constructor.
  - apply Permutation_cons_app. exact IH.
  - rewrite app_assoc. apply Permutation_cons_app. rewrite <- app_assoc. exact IH.
  - rewrite 2 app_assoc. apply Permutation_cons_app.
    rewrite <- 2 app_assoc. exact IH.
Qed.

(** C1.  [categorizePRs] puts every record of its input in exactly one of the
    four buckets, the one the priority rule names (draft, else APPROVED, else
    CHANGES_REQUESTED, else review required): each bucket is the input
    filtered by that rule, so it keeps the input's relative order, and the
    four buckets together are a rearrangement of the input.  The rule itself
    is spelled out on the draft flag and the review decision. *)
Theorem categorizePRs_strict_priority (prs : list pr) :
  (forall b, content b (categorizePRs prs)
             = filter (fun p => bucket_eqb (priority_bucket p) b) prs)
  /\ Permutation prs
       (approved (categorizePRs prs) ++ changesRequested (categorizePRs prs)
        ++ reviewRequired (categorizePRs prs) ++ draft (categorizePRs prs))
  /\ (forall p b, In p (content b (categorizePRs prs))
                  <-> In p prs /\ priority_bucket p = b)
  /\ (forall p,
        (isDraft p = VBool true -> priority_bucket p = Draft)
        /\ (isDraft p = VBool false -> reviewDecision p = VStr "APPROVED" ->
            priority_bucket p = Approved)
        /\ (isDraft p = VBool false ->
            reviewDecision p = VStr "CHANGES_REQUESTED" ->
            priority_bucket p = ChangesRequested)
        /\ (isDraft p = VBool false ->
            reviewDecision p <> VStr "APPROVED" ->
            reviewDecision p <> VStr "CHANGES_REQUESTED" ->
            priority_bucket p = ReviewRequired)).
Proof.
  assert (Hc : forall b, content b (categorizePRs prs)
             = filter (fun p => bucket_eqb (priority_bucket p) b) prs).
  { intro b. unfold categorizePRs. rewrite categorize_fold_content.
    destruct b; reflexivity. }
  split; [exact Hc|]. split; [|split].
  - change (approved (categorizePRs prs)) with (content Approved (categorizePRs prs)).
    change (changesRequested (categorizePRs prs))
      with (content ChangesRequested (categorizePRs prs)).
    change (reviewRequired (categorizePRs prs))
      with (content ReviewRequired (categorizePRs prs)).
    change (draft (categorizePRs prs)) with (content Draft (categorizePRs prs)).
    rewrite !Hc. apply four_way_permutation.
  - intros p b. rewrite Hc, filter_In, bucket_eqb_eq. reflexivity.
  - intro p. unfold priority_bucket. repeat split.
    + intros ->. reflexivity.
    + intros -> ->. reflexivity.
    + intros -> ->. reflexivity.
    + intros -> Ha Hc'. simpl.
      destruct (is_str (reviewDecision p) "APPROVED") eqn:E1;
        [apply is_str_spec in E1; contradiction|].
      destruct (is_str (reviewDecision p) "CHANGES_REQUESTED") eqn:E2;
        [apply is_str_spec in E2; contradiction|].
      reflexivity.
Qed.

End ClassifierProofs.

(* ================================================================== *)
(** * Properties of the normalizer *)
(* ================================================================== *)

Module NormalizerProofs.
Import JS GitHub Spec Samples JSFacts.
Local Open Scope list_scope.

Section WithEngine.

(** The engine's text of large numbers: every statement holds whatever it
    is. *)
Variable nt : Z -> string.

Lemma is_obj_not_nullish v : is_obj v = true -> nullish v = false.
Proof. destruct v; simpl; congruence. Qed.

Lemma opt_get_truthy o k :
  truthy (opt_get o k) = true -> opt_get o k = get_own o k.
Proof. unfold opt_get. destruct (nullish o); simpl; congruence. Qed.

Lemma opt_get_undefined_of_nullish o k :
  nullish o = true -> opt_get o k = VUndefined.
Proof. unfold opt_get. now intros ->. Qed.

(** *** The checks *)

Lemma check_of_object ps : exists c, check_of (VObj ps) = Ok c.
Proof.
  unfold check_of, bind, has_property.
  destruct (assoc "conclusion" ps); eexists; reflexivity.
Qed.

Lemma map_result_check_of xs :
  forallb is_obj xs = true -> exists cs, map_result check_of xs = Ok cs.
Proof.
  induction xs as [|x xs IH]; simpl; intro H.
  - now exists [].
  - apply andb_true_iff in H as [Hx Hxs].
    destruct x; try discriminate.
    destruct (check_of_object props) as [c ->].
    destruct (IH Hxs) as [cs ->]. now eexists.
Qed.

(** *** The review loop *)

Lemma review_step_record m r :
  nullish r = false -> review_step m r = Ok (record_review m r).
Proof.
  intro Hr. unfold review_step, record_review, author_login, get, bind.
  rewrite Hr.
  destruct (truthy (opt_get (get_own r "author") "login")) eqn:Ht.
  - now rewrite (opt_get_truthy _ _ Ht).
  - reflexivity.
Qed.

Lemma for_of_review_step rs : forall m,
  forallb is_obj rs = true ->
  for_of review_step rs m = Ok (fold_left record_review rs m).
Proof.
  induction rs as [|r rs IH]; intros m H; simpl in *.
  - reflexivity.
  - apply andb_true_iff in H as [Hr Hrs].
    rewrite (review_step_record m r (is_obj_not_nullish _ Hr)).
    now apply IH.
Qed.

(** *** The whole function on a well-shaped node *)

Lemma normalizePR_raw node :
  raw_pr_node node = true ->
  exists ctxs cs rs repo_text,
    context_nodes (rollup_of node) = VArr ctxs
    /\ map_result check_of ctxs = Ok cs
    /\ review_nodes node = VArr rs
    /\ forallb is_obj rs = true
    /\ normalizePR nt node
       = Ok {| number := get_own node "number";
               title := get_own node "title";
               url := get_own node "url";
               isDraft := get_own node "isDraft";
               updatedAt := get_own node "updatedAt";
               repo := repo_text;
               repoName := get_own (get_own node "repository") "name";
               reviewDecision := get_own node "reviewDecision";
               reviewers := as_reviewers (fold_left record_review rs []);
               ciStatus := ci_of (rollup_of node);
               checks := cs |}.
Proof.
  unfold raw_pr_node. intro H.
  repeat (apply andb_true_iff in H as [H ?]).
  destruct (context_nodes (rollup_of node)) as [ | | | | |ctxs| ] eqn:Hctx;
    try discriminate.
  destruct (review_nodes node) as [ | | | | |rs| ] eqn:Hrev; try discriminate.
  simpl in *.
  destruct (map_result_check_of ctxs) as [cs Hcs]; [assumption|].
  destruct (to_string_printable nt
              (get_own (get_own (get_own node "repository") "owner") "login"))
    as [login_text Hlogin]; [assumption|].
  destruct (to_string_printable nt
              (get_own (get_own node "repository") "name"))
    as [name_text Hname]; [assumption|].
  exists ctxs, cs, rs, (login_text ++ "/" ++ name_text)%string.
  repeat split; try assumption.
  unfold normalizePR, get, bind.
  rewrite (is_obj_not_nullish node) by assumption.
  rewrite Hctx, Hrev. simpl. rewrite Hcs.
  rewrite for_of_review_step by assumption.
  rewrite (is_obj_not_nullish (get_own node "repository")) by assumption.
  rewrite (is_obj_not_nullish (get_own (get_own node "repository") "owner"))
    by assumption.
  rewrite Hlogin, Hname. reflexivity.
Qed.

(** *** The CI status *)

Lemma ci_of_none r : ci_of r = none <-> truthy r = false.
Proof.
  unfold ci_of. destruct (truthy r).
  - destruct (is_str (get_own r "state") "SUCCESS");
      [|destruct (is_str (get_own r "state") "FAILURE"
                 || is_str (get_own r "state") "ERROR")];
      split; discriminate.
  - split; reflexivity.
Qed.

Lemma ci_of_rollup r :
  truthy r = true ->
  let s := get_own r "state" in
  (ci_of r = success <-> s = VStr "SUCCESS")
  /\ (ci_of r = failure <-> s = VStr "FAILURE" \/ s = VStr "ERROR")
  /\ (ci_of r = pending <->
      s <> VStr "SUCCESS" /\ s <> VStr "FAILURE" /\ s <> VStr "ERROR").
Proof.
  intros Ht s. unfold ci_of. rewrite Ht. fold s.
  destruct (is_str s "SUCCESS") eqn:Es.
  - apply is_str_spec in Es. rewrite Es.
    repeat split; intros; try discriminate; try reflexivity.
    + destruct H as [H|H]; discriminate.
    + destruct H as [H _]. congruence.
  - apply is_str_false in Es.
    destruct (is_str s "FAILURE") eqn:Ef; simpl.
    + apply is_str_spec in Ef.
      repeat split; intros; try discriminate; try congruence; auto.
      destruct H as (_ & H & _). contradiction.
    + apply is_str_false in Ef.
      destruct (is_str s "ERROR") eqn:Ee.
      * apply is_str_spec in Ee.
        repeat split; intros; try discriminate; try congruence; auto.
        destruct H as (_ & _ & H). contradiction.
      * apply is_str_false in Ee.
        repeat split; intros; try discriminate; try congruence; auto.
        destruct H as [H|H]; contradiction.
Qed.

(** A missing link anywhere on the way to the rollup leaves no rollup. *)
Lemma rollup_of_missing node :
  nullish (get_own node "commits") = true
  \/ nullish (opt_get (get_own node "commits") "nodes") = true
  \/ nullish (rollup_of node) = true ->
  nullish (rollup_of node) = true.
Proof.
  unfold rollup_of. intros [H|[H|H]]; [| |exact H].
  - now rewrite !(opt_get_undefined_of_nullish _ _ H).
  - rewrite (opt_get_undefined_of_nullish _ "0" H). reflexivity.
Qed.

Lemma context_nodes_missing r :
  nullish (opt_get r "contexts") = true
  \/ nullish (opt_get (opt_get r "contexts") "nodes") = true ->
  context_nodes r = VArr [].
Proof.
  unfold context_nodes, coalesce. intros [H|H].
  - now rewrite (opt_get_undefined_of_nullish _ _ H).
  - now rewrite H.
Qed.

Lemma nullish_not_truthy v : nullish v = true -> truthy v = false.
Proof. destruct v; simpl; congruence. Qed.

(** C4, as the code has it.  On every node of the answer's shape
    [normalizePR] returns, and its [ciStatus] is [none] exactly when the head
    commit carries no rollup, which is the case whenever the commits list or
    the rollup is absent or [null]; whenever the commits list, the rollup or
    the contexts are absent or [null], [checks] is empty; and with a rollup
    the status is [success] iff its state is SUCCESS, [failure] iff it is
    FAILURE or ERROR, [pending] otherwise.  Missing contexts alone do not
    make the status [none]. *)
Theorem normalizePR_ciStatus (node : value) :
  raw_pr_node node = true ->
  exists p, normalizePR nt node = Ok p
    /\ (ciStatus p = none <-> truthy (rollup_of node) = false)
    /\ (nullish (get_own node "commits") = true
        \/ nullish (opt_get (get_own node "commits") "nodes") = true
        \/ nullish (rollup_of node) = true ->
        ciStatus p = none /\ checks p = [])
    /\ (nullish (opt_get (rollup_of node) "contexts") = true
        \/ nullish (opt_get (opt_get (rollup_of node) "contexts") "nodes") = true ->
        checks p = [])
    /\ (truthy (rollup_of node) = true ->
        let s := get_own (rollup_of node) "state" in
        (ciStatus p = success <-> s = VStr "SUCCESS")
        /\ (ciStatus p = failure <-> s = VStr "FAILURE" \/ s = VStr "ERROR")
        /\ (ciStatus p = pending <->
            s <> VStr "SUCCESS" /\ s <> VStr "FAILURE" /\ s <> VStr "ERROR")).
Proof.
  intro Hraw.
  destruct (normalizePR_raw node Hraw)
    as (ctxs & cs & rs & repo_text & Hctx & Hcs & _ & _ & Hp).
  eexists. split; [exact Hp|]. simpl.
  assert (Hempty : context_nodes (rollup_of node) = VArr [] -> cs = []).
  { intro E. rewrite E in Hctx. injection Hctx as <-. simpl in Hcs. congruence. }
  split; [apply ci_of_none|]. split; [|split].
  - intro H. apply rollup_of_missing in H. split.
    + apply ci_of_none. now apply nullish_not_truthy.
    + apply Hempty. apply context_nodes_missing. left.
      now rewrite (opt_get_undefined_of_nullish _ _ H).
  - intro H. apply Hempty. now apply context_nodes_missing.
  - apply ci_of_rollup.
Qed.



(** *** The review map *)

Lemma map_set_keys (P : value -> Prop) k v m :
  Forall (fun e => P (fst e)) m -> P k ->
  Forall (fun e => P (fst e)) (map_set k v m).
Proof.
  intros Hm Hk. induction m as [|[k' v'] m IH]; simpl.
  - constructor; [exact Hk|constructor].
  - inversion Hm as [|? ? Hk' Hm']; subst.
    destruct (same_value_zero k' k); constructor; auto.
Qed.

Lemma map_set_distinct k v m :
  distinct_keys m -> distinct_keys (map_set k v m).
Proof.
  unfold distinct_keys.
  induction m as [|[k' v'] m IH]; simpl; intro Hd.
  - constructor; constructor.
  - inversion Hd as [|? ? Hhead Htail]; subst.
    destruct (same_value_zero k' k) eqn:E.
    + constructor; assumption.
    + constructor; [|auto].
      apply (map_set_keys (fun x => same_value_zero k' x = false)); assumption.
Qed.

(** After [set k v] an entry is the one just written, or an older entry
    under another key. *)
Lemma map_set_In k v m e :
  distinct_keys m -> In e (map_set k v m) ->
  (fst e = k /\ snd e = v)
  \/ (In e m /\ same_value_zero (fst e) k = false).
Proof.
  unfold distinct_keys.
  induction m as [|[k' v'] m IH]; simpl; intros Hd Hin.
  - destruct Hin as [<-|[]]. now left.
  - inversion Hd as [|? ? Hhead Htail]; subst.
    destruct (same_value_zero k' k) eqn:E.
    + pose proof (same_value_zero_eq _ _ E) as ->.
      destruct Hin as [<-|Hin]; [now left|].
      right. split; [now right|].
      rewrite Forall_forall in Hhead. specialize (Hhead e Hin). simpl in Hhead.
      now rewrite same_value_zero_sym.
    + destruct Hin as [<-|Hin].
      * right. split; [now left|exact E].
      * destruct (IH Htail Hin) as [H|[H1 H2]]; [now left|].
        right. split; [now right|exact H2].
Qed.

Lemma map_set_has_key k v m :
  exists e, In e (map_set k v m) /\ fst e = k /\ snd e = v.
Proof.
  induction m as [|[k' v'] m IH]; simpl.
  - exists (k, v). auto.
  - destruct (same_value_zero k' k) eqn:E.
    + exists (k', v). simpl. split; [now left|].
      split; [now apply same_value_zero_eq|reflexivity].
    + destruct IH as (e & Hin & Hk). exists e. split; [now right|exact Hk].
Qed.

Lemma map_set_keeps k v m e :
  In e m -> exists e', In e' (map_set k v m) /\ fst e' = fst e.
Proof.
  induction m as [|[k' v'] m IH]; simpl; intro Hin; [contradiction|].
  destruct Hin as [<-|Hin].
  - destruct (same_value_zero k' k); eexists; (split; [now left|reflexivity]).
  - destruct (IH Hin) as (e' & Hin' & Hk).
    destruct (same_value_zero k' k).
    + exists e. split; [now right|reflexivity].
    + exists e'. split; [now right|exact Hk].
Qed.

Lemma review_invariant_nil : review_invariant [] [].
Proof.
  split; try (intros ? []). constructor.
Qed.

Lemma review_invariant_step rs m r :
  review_invariant rs m -> review_invariant (rs ++ [r]) (record_review m r).
Proof.
  intros [Hd Ht Hl Hc]. unfold record_review.
  destruct (truthy (author_login r)) eqn:Hr.
  - split.
    + now apply map_set_distinct.
    + intros e He.
      assert (F : Forall (fun e => truthy (fst e) = true)
                         (map_set (author_login r) (get_own r "state") m)).
      { apply (map_set_keys (fun x => truthy x = true)); [|exact Hr].
        apply Forall_forall. exact Ht. }
      rewrite Forall_forall in F. now apply F.
    + intros e He.
      destruct (map_set_In _ _ _ _ Hd He) as [[Hk Hv]|[Hin Hne]].
      * exists rs, r, []. repeat split; auto.
      * destruct (Hl e Hin) as (pre & r0 & post & -> & Hk & Hv & Hpost).
        exists pre, r0, (post ++ [r]). repeat split; auto.
        -- now rewrite <- app_assoc.
        -- apply Forall_app. split; [exact Hpost|].
           constructor; [|constructor]. now rewrite same_value_zero_sym.
    + intros r' Hin Htr. apply in_app_or in Hin as [Hin|[<-|[]]].
      * destruct (Hc r' Hin Htr) as (e & He & Hk).
        destruct (map_set_keeps (author_login r) (get_own r "state") m e He)
          as (e' & He' & Hk').
        exists e'. split; [exact He'|congruence].
      * destruct (map_set_has_key (author_login r) (get_own r "state") m)
          as (e & He & Hk & _).
        now exists e.
  - split; auto.
    + intros e He.
      destruct (Hl e He) as (pre & r0 & post & -> & Hk & Hv & Hpost).
      exists pre, r0, (post ++ [r]). repeat split; auto.
      * now rewrite <- app_assoc.
      * apply Forall_app. split; [exact Hpost|].
        constructor; [|constructor].
        destruct (same_value_zero (author_login r) (fst e)) eqn:E; [|reflexivity].
        apply same_value_zero_truthy in E. rewrite (Ht e He) in E. congruence.
    + intros r' Hin Htr. apply in_app_or in Hin as [Hin|[<-|[]]].
      * now apply Hc.
      * congruence.
Qed.

Lemma review_invariant_fold rs :
  review_invariant rs (fold_left record_review rs []).
Proof.
  induction rs as [|r rs IH] using rev_ind.
  - apply review_invariant_nil.
  - rewrite fold_left_app. simpl. now apply review_invariant_step.
Qed.

Lemma ForallOrdPairs_map {A B} (R : B -> B -> Prop) (f : A -> B) l :
  ForallOrdPairs (fun a b => R (f a) (f b)) l -> ForallOrdPairs R (map f l).
Proof.
  induction 1 as [|a l Ha Hl IH]; simpl; constructor; auto.
  apply Forall_map. exact Ha.
Qed.

(** C5.  From a node of the answer's shape [normalizePR] produces reviewers
    of which no two share a login; each entry carries the state of the last
    review of the input list with that login; every review with a login is
    represented; and a list of three reviews by A, B and A again yields
    A with the third review's state followed by B with the second's. *)
Theorem normalizePR_reviewers_last_wins (node : value) :
  raw_pr_node node = true ->
  exists p rs,
    normalizePR nt node = Ok p
    /\ review_nodes node = VArr rs
    /\ ForallOrdPairs
         (fun a b => same_value_zero (login a) (login b) = false) (reviewers p)
    /\ (forall e, In e (reviewers p) ->
        exists pre r post,
          rs = pre ++ r :: post
          /\ author_login r = login e
          /\ get_own r "state" = state e
          /\ Forall (fun r' => same_value_zero (author_login r') (login e) = false)
                    post)
    /\ (forall r, In r rs -> truthy (author_login r) = true ->
        exists e, In e (reviewers p) /\ login e = author_login r)
    /\ (forall r1 r2 r3 A B,
        rs = [r1; r2; r3] ->
        author_login r1 = VStr A -> author_login r2 = VStr B ->
        author_login r3 = VStr A ->
        A <> B -> A <> ""%string -> B <> ""%string ->
        reviewers p = [mkReviewer (VStr A) (get_own r3 "state");
                       mkReviewer (VStr B) (get_own r2 "state")]).
Proof.
  intro Hraw.
  destruct (normalizePR_raw node Hraw)
    as (ctxs & cs & rs & repo_text & _ & _ & Hrs & _ & Hp).
  eexists. exists rs. split; [exact Hp|]. split; [exact Hrs|]. simpl.
  destruct (review_invariant_fold rs) as [Hd Ht Hl Hc].
  unfold as_reviewers. split; [|split; [|split]].
  - apply ForallOrdPairs_map. exact Hd.
  - intros e He. apply in_map_iff in He as (x & <- & Hx). simpl.
    now apply Hl.
  - intros r Hr Htr. destruct (Hc r Hr Htr) as (e & He & Hk).
    exists (mkReviewer (fst e) (snd e)). split; [|exact Hk].
    apply in_map_iff. now exists e.
  - intros r1 r2 r3 A B -> H1 H2 H3 Hab Ha Hb. simpl.
    unfold record_review. rewrite H1, H2, H3. simpl.
    apply String.eqb_neq in Hab, Ha, Hb. rewrite Ha, Hb. simpl.
    rewrite Hab. simpl. rewrite String.eqb_refl. reflexivity.
Qed.


(** *** Reviews without an author *)

Lemma record_review_no_identity m r :
  no_identity r = true -> record_review m r = m.
Proof.
  unfold no_identity, record_review. intro H.
  now rewrite (nullish_not_truthy _ H).
Qed.

Lemma fold_record_review_filter rs : forall m,
  fold_left record_review rs m
  = fold_left record_review (filter (fun r => negb (no_identity r)) rs) m.
Proof.
  induction rs as [|r rs IH]; intro m; simpl; [reflexivity|].
  destruct (no_identity r) eqn:E; simpl.
  - rewrite (record_review_no_identity m r E). apply IH.
  - apply IH.
Qed.

Lemma forallb_filter {A} (f g : A -> bool) l :
  forallb f l = true -> forallb f (filter g l) = true.
Proof.
  induction l as [|x l IH]; simpl; intro H; [reflexivity|].
  apply andb_true_iff in H as [Hx Hl].
  destruct (g x); simpl; [rewrite Hx|]; auto.
Qed.

(** C10.  On a node of the answer's shape, a review whose author or whose
    author's login is absent or [null] leaves the review map as it finds it;
    the reviewers produced are those the loop computes from the list with
    such reviews taken out; and every reviewer produced has a login and
    comes from a review that has one. *)
Theorem normalizePR_skips_authorless (node : value) :
  raw_pr_node node = true ->
  exists p rs,
    normalizePR nt node = Ok p
    /\ review_nodes node = VArr rs
    /\ (forall m r, In r rs -> no_identity r = true -> review_step m r = Ok m)
    /\ (exists m,
          for_of review_step (filter (fun r => negb (no_identity r)) rs) [] = Ok m
          /\ reviewers p = as_reviewers m)
    /\ (forall e, In e (reviewers p) ->
          nullish (login e) = false
          /\ exists r, In r rs /\ no_identity r = false
                       /\ author_login r = login e
                       /\ get_own r "state" = state e).
Proof.
  intro Hraw.
  destruct (normalizePR_raw node Hraw)
    as (ctxs & cs & rs & repo_text & _ & _ & Hrs & Hobj & Hp).
  eexists. exists rs. split; [exact Hp|]. split; [exact Hrs|]. simpl.
  split; [|split].
  - intros m r Hin Hno.
    rewrite forallb_forall in Hobj.
    rewrite (review_step_record m r (is_obj_not_nullish _ (Hobj r Hin))).
    now rewrite record_review_no_identity.
  - eexists. split.
    + apply for_of_review_step. now apply forallb_filter.
    + now rewrite <- fold_record_review_filter.
  - intros e He. unfold as_reviewers in He.
    apply in_map_iff in He as (x & <- & Hx). simpl.
    destruct (review_invariant_fold rs) as [_ Ht Hl _].
    specialize (Ht x Hx).
    assert (Hnn : nullish (fst x) = false).
    { destruct (nullish (fst x)) eqn:E; [|reflexivity].
      apply nullish_not_truthy in E. congruence. }
    split; [exact Hnn|].
    destruct (Hl x Hx) as (pre & r & post & -> & Hk & Hv & _).
    exists r. repeat split; auto.
    + apply in_or_app. right. now left.
    + unfold no_identity. now rewrite Hk.
Qed.

End WithEngine.

Lemma normalizePR_ciStatus_witness :
  raw_pr_node bare_node = true
  /\ exists p, normalizePR in_full bare_node = Ok p
       /\ (ciStatus p = none <-> truthy (rollup_of bare_node) = false).
Proof.
  split; [reflexivity|].
  destruct (normalizePR_ciStatus in_full bare_node eq_refl) as (p & Hp & Hnone & _).
  exists p. split; assumption.
Defined.

(** C4 as worded lists missing contexts among the cases of [ciStatus = none]:
    a rollup that has a state and [contexts: null] is normalized to
    [ciStatus = success] with empty checks. *)
Lemma normalizePR_contexts_null_not_none :
  raw_pr_node rollup_without_contexts = true
  /\ nullish (opt_get (rollup_of rollup_without_contexts) "contexts") = true
  /\ exists p, normalizePR in_full rollup_without_contexts = Ok p
       /\ checks p = []
       /\ ciStatus p = success
       /\ ciStatus p <> none.
Proof.
  split; [reflexivity|]. split; [reflexivity|].
  eexists. split; [reflexivity|]. simpl.
  split; [reflexivity|]. split; [reflexivity|discriminate].
Qed.

Lemma normalizePR_reviewers_last_wins_witness :
  raw_pr_node thrice_reviewed = true
  /\ exists p, normalizePR in_full thrice_reviewed = Ok p
       /\ reviewers p = [mkReviewer (VStr "A") (VStr "Z");
                         mkReviewer (VStr "B") (VStr "Y")].
Proof.
  split; [reflexivity|].
  destruct (normalizePR_reviewers_last_wins in_full thrice_reviewed eq_refl)
    as (p & rs & Hp & Hrs & _ & _ & _ & Hex).
  exists p. split; [exact Hp|].
  apply (Hex (review "A" "X") (review "B" "Y") (review "A" "Z") "A" "B")%string;
    try reflexivity; try discriminate.
  vm_compute in Hrs. now injection Hrs as <-.
Defined.

Lemma normalizePR_skips_authorless_witness :
  raw_pr_node ghost_reviewed = true
  /\ exists p, normalizePR in_full ghost_reviewed = Ok p
       /\ reviewers p = [mkReviewer (VStr "A") (VStr "X")].
Proof.
  split; [reflexivity|].
  destruct (normalizePR_skips_authorless in_full ghost_reviewed eq_refl)
    as (p & rs & Hp & Hrs & _ & (m & Hm & Hrev) & _).
  exists p. split; [exact Hp|].
  vm_compute in Hrs. injection Hrs as <-.
  vm_compute in Hm. injection Hm as <-. exact Hrev.
Defined.

End NormalizerProofs.

(* ================================================================== *)
(** * Properties of the client *)
(* ================================================================== *)

Module ClientProofs.
Import JS GitHub Spec Samples JSFacts.
Local Open Scope list_scope.

Section WithEngine.

Variable nt : Z -> string.

Lemma graphql_is_not_notifications :
  String.prefix NOTIFICATIONS_URL GRAPHQL_URL = false.
Proof. reflexivity. Qed.

Lemma notifications_is_notifications :
  String.prefix NOTIFICATIONS_URL NOTIFICATIONS_URL = true.
Proof. reflexivity. Qed.

(** Every call hands exactly one message to the session. *)
Lemma request_wire net url token method body c :
  wire (snd (_request net url token method body c))
  = wire c ++ [new_message url token method body c].
Proof.
  unfold _request, _sendAsync.
  destruct (net _) as [msg|s lm text parsed]; [reflexivity|].
  destruct (s =? 304); [reflexivity|].
  destruct ((s <? 200) || (s >=? 300)); [reflexivity|].
  destruct (String.prefix NOTIFICATIONS_URL url), (truthy_str lm), parsed;
    reflexivity.
Qed.

(** The stored [Last-Modified] after a call: the old one, unless the call
    went to the notification endpoint and was answered 2xx with a header. *)
Lemma request_poll net url token method body c :
  let c' := snd (_request net url token method body c) in
  _lastNotificationPoll c' = _lastNotificationPoll c
  \/ (String.prefix NOTIFICATIONS_URL url = true
      /\ exists s lm text parsed,
           net (new_message url token method body c)
           = Response s (Some lm) text parsed
           /\ 200 <= s < 300 /\ lm <> ""%string
           /\ _lastNotificationPoll c' = Some lm).
Proof.
  unfold _request, _sendAsync.
  destruct (net _) as [msg|s lm text parsed] eqn:Hnet; [now left|].
  destruct (s =? 304); [now left|].
  destruct ((s <? 200) || (s >=? 300)) eqn:Hs; [now left|].
  apply orb_false_iff in Hs as [Hlo Hhi].
  apply Z.ltb_ge in Hlo. rewrite Z.geb_leb in Hhi. apply Z.leb_gt in Hhi.
  destruct (String.prefix NOTIFICATIONS_URL url) eqn:Hp;
    [|destruct parsed; now left].
  destruct lm as [lm|]; simpl; [|destruct parsed; now left].
  destruct (String.eqb_spec lm "") as [->|Hne]; simpl;
    [destruct parsed; now left|].
  right. split; [reflexivity|].
  exists s, lm, text, parsed. repeat split; auto; try lia.
  destruct parsed; reflexivity.
Qed.

(** After [_request] the two fetch methods only compute on the answer. *)
Lemma fetchPullRequests_client net token c :
  snd (fetchPullRequests nt net token c)
  = snd (_request net GRAPHQL_URL token "POST"
                  (Some (VObj [("query", VStr PR_QUERY)])) c).
Proof.
  unfold fetchPullRequests, bindM.
  destruct (_request _ _ _ _ _ c) as [[data|e] c1]; [|reflexivity].
  unfold lift. destruct (get data "errors") as [errors|e]; [|reflexivity].
  destruct (truthy (opt_get errors "length")).
  - destruct (get errors "0") as [first|e]; [|reflexivity].
    destruct (get first "message") as [msg|e]; [|reflexivity].
    destruct (to_string nt msg); reflexivity.
  - destruct (array_map (normalizePR nt) _); reflexivity.
Qed.

Lemma fetchNotifications_client net token filterReasons c :
  snd (fetchNotifications net token filterReasons c)
  = snd (_request net NOTIFICATIONS_URL token "GET" None c).
Proof.
  unfold fetchNotifications, bindM.
  destruct (_request _ _ _ _ _ c) as [[data|e] c1]; [|reflexivity].
  unfold lift, ret.
  destruct data; try reflexivity;
    destruct filterReasons; try reflexivity;
    match goal with
    | |- context [array_filter ?f ?v] => destruct (array_filter f v); reflexivity
    end.
Qed.

(** A pull-request fetch never touches the stored [Last-Modified]. *)
Lemma fetchPullRequests_poll net token c :
  _lastNotificationPoll (snd (fetchPullRequests nt net token c))
  = _lastNotificationPoll c.
Proof.
  rewrite fetchPullRequests_client.
  destruct (request_poll net GRAPHQL_URL token "POST"
              (Some (VObj [("query", VStr PR_QUERY)])) c) as [H|[H _]].
  - exact H.
  - rewrite graphql_is_not_notifications in H. discriminate.
Qed.

(** Nor does its outcome depend on the state of the client. *)
Lemma fetchPullRequests_outcome net token c c0 :
  fst (fetchPullRequests nt net token c) = fst (fetchPullRequests nt net token c0).
Proof.
  unfold fetchPullRequests, bindM, _request, _sendAsync, new_message.
  rewrite graphql_is_not_notifications. simpl.
  destruct (net _) as [msg|s lm text parsed]; [reflexivity|].
  destruct (s =? 304).
  { simpl. reflexivity. }
  destruct ((s <? 200) || (s >=? 300)); [reflexivity|].
  destruct parsed as [data|]; [|reflexivity].
  unfold lift. destruct (get data "errors") as [errors|e]; [|reflexivity].
  destruct (truthy (opt_get errors "length")).
  - destruct (get errors "0") as [first|e]; [|reflexivity].
    destruct (get first "message") as [msg|e]; [|reflexivity].
    destruct (to_string nt msg); reflexivity.
  - destruct (array_map (normalizePR nt) _); reflexivity.
Qed.

(** *** Status codes *)

Lemma status_2xx s :
  200 <= s < 300 -> (s =? 304) = false /\ ((s <? 200) || (s >=? 300)) = false.
Proof.
  intro H. split.
  - apply Z.eqb_neq. lia.
  - apply orb_false_iff. split; [apply Z.ltb_ge; lia|].
    rewrite Z.geb_leb. apply Z.leb_gt. lia.
Qed.

Lemma status_failed s :
  s <> 304 -> s < 200 \/ 300 <= s ->
  (s =? 304) = false /\ ((s <? 200) || (s >=? 300)) = true.
Proof.
  intros H304 H. split; [now apply Z.eqb_neq|].
  apply orb_true_iff. destruct H as [H|H].
  - left. apply Z.ltb_lt. lia.
  - right. rewrite Z.geb_leb. apply Z.leb_le. lia.
Qed.

(** *** Counting notifications *)

Lemma includes_reason filterReasons n :
  includes filterReasons (get_own n "reason") = reason_enabled filterReasons n.
Proof.
  unfold includes, reason_enabled.
  destruct (get_own n "reason"); try reflexivity;
    induction filterReasons as [|f fs IH]; simpl; auto.
Qed.

Lemma filter_result_reasons filterReasons ns :
  forallb is_obj ns = true ->
  filter_result (fun n => bind (get n "reason")
                            (fun reason => Ok (includes filterReasons reason))) ns
  = Ok (filter (reason_enabled filterReasons) ns).
Proof.
  induction ns as [|n ns IH]; simpl; intro H; [reflexivity|].
  apply andb_true_iff in H as [Hn Hns].
  assert (Hget : get n "reason" = Ok (get_own n "reason")).
  { unfold get. now rewrite (NormalizerProofs.is_obj_not_nullish n Hn). }
  rewrite Hget. cbn [bind]. rewrite (IH Hns), includes_reason. reflexivity.
Qed.

(** C6.  When the notification endpoint answers 2xx with an array of
    objects, [fetchNotifications] returns the number of those whose [reason]
    is among the enabled reasons, and the length of the whole array when no
    reason is enabled. *)
Theorem fetchNotifications_count net token filterReasons c s lm text ns :
  (forall req, req_url req = NOTIFICATIONS_URL ->
               net req = Response s lm text (Some (VArr ns))) ->
  200 <= s < 300 ->
  forallb is_obj ns = true ->
  fst (fetchNotifications net token filterReasons c)
  = Ok (VNum (Z.of_nat (List.length
          (match filterReasons with
           | [] => ns
           | _ :: _ => filter (reason_enabled filterReasons) ns
           end)))).
Proof.
  intros Hnet Hs Hobj.
  destruct (status_2xx s Hs) as [H304 Hfail].
  unfold fetchNotifications, bindM, _request, _sendAsync.
  rewrite Hnet by reflexivity. rewrite H304, Hfail.
  rewrite notifications_is_notifications.
  destruct (truthy_str lm); simpl;
    (destruct filterReasons as [|f fs]; [reflexivity|]);
    unfold lift, array_filter;
    rewrite (filter_result_reasons (f :: fs) ns Hobj); reflexivity.
Qed.


(** *** Failures of the pull-request fetch *)

(** C7, as the code has it.  A status outside 200..299 other than 304 makes
    [fetchPullRequests] throw a plain [Error] reading
    [GitHub API <status>: <first 200 characters of the body>], 401 and 403
    like any other; a 2xx answer whose [errors] is a non-empty array makes it
    throw a plain [Error] reading [GraphQL error: <message of the first>]
    when that message converts to a string, and the [TypeError] of the
    conversion when it does not (an object with a [toString] key of its
    own); a transport failure comes through as the transport's own error.
    The first two are of one class and differ in their text only. *)
Theorem fetchPullRequests_failures net token c :
  let sent := new_message GRAPHQL_URL token "POST"
                          (Some (VObj [("query", VStr PR_QUERY)])) c in
  (forall s lm text parsed,
      net sent = Response s lm text parsed ->
      s <> 304 -> s < 200 \/ 300 <= s ->
      fst (fetchPullRequests nt net token c)
      = Throw (mkExn ErrorC ("GitHub API " ++ string_of_Z s ++ ": "
                             ++ take 200 text)%string))
  /\ (forall s lm text data first rest,
        net sent = Response s lm text (Some data) ->
        200 <= s < 300 ->
        nullish data = false ->
        get_own data "errors" = VArr (first :: rest) ->
        nullish first = false ->
        fst (fetchPullRequests nt net token c)
        = match to_string nt (get_own first "message") with
          | Ok text => Throw (mkExn ErrorC ("GraphQL error: " ++ text)%string)
          | Throw e => Throw e
          end)
  /\ (forall msg,
        net sent = NetworkFailure msg ->
        fst (fetchPullRequests nt net token c) = Throw (mkExn GLibErrorC msg)).
Proof.
  intro sent. repeat split.
  - intros s lm text parsed Hnet H304 Hs.
    destruct (status_failed s H304 Hs) as [E1 E2].
    unfold fetchPullRequests, bindM, _request, _sendAsync.
    fold sent. rewrite Hnet, E1, E2. reflexivity.
  - intros s lm text data first rest Hnet Hs Hdata Herr Hfirst.
    destruct (status_2xx s Hs) as [E1 E2].
    unfold fetchPullRequests, bindM, _request, _sendAsync.
    fold sent. rewrite Hnet, E1, E2, graphql_is_not_notifications.
    unfold lift, get. rewrite Hdata, Herr. simpl.
    rewrite Hfirst.
    destruct (to_string nt (get_own first "message")); reflexivity.
  - intros msg Hnet.
    unfold fetchPullRequests, bindM, _request, _sendAsync.
    fold sent. rewrite Hnet. reflexivity.
Qed.

End WithEngine.

Lemma fetchNotifications_count_witness :
  fst (fetchNotifications
         (answering 200 (Some "Mon, 02 Nov 2026 10:00:00 GMT") "[...]"
                    (Some (VArr three_notifications)))
         "t" ["review_requested"%string] new_client)
  = Ok (VNum 2).
Proof.
  apply (fetchNotifications_count
           (answering 200 (Some "Mon, 02 Nov 2026 10:00:00 GMT") "[...]"
                      (Some (VArr three_notifications)))
           "t" ["review_requested"%string] new_client
           200 (Some "Mon, 02 Nov 2026 10:00:00 GMT"%string) "[...]"
           three_notifications).
  - intros req _. reflexivity.
  - lia.
  - reflexivity.
Defined.

Lemma fetchPullRequests_failures_witness :
  fst (fetchPullRequests in_full (answering 403 None "Forbidden" None) "t" new_client)
  = Throw (mkExn ErrorC "GitHub API 403: Forbidden").
Proof.
  apply (proj1 (fetchPullRequests_failures in_full
                  (answering 403 None "Forbidden" None) "t" new_client)
               403 None "Forbidden"%string None).
  - reflexivity.
  - lia.
  - right. lia.
Defined.

(** C7 as worded wants an [AuthError] for 401 and 403 that is a kind apart
    from the [TransportError] of other statuses.  The errors thrown for 401,
    for 500 and for a GraphQL error are all of the class [Error]: no kind
    read off the class of the thrown error tells them apart. *)
Lemma fetchPullRequests_one_error_class :
  fst (fetchPullRequests in_full (answering 401 None "Bad credentials" None)
                         "t" new_client)
  = Throw (mkExn ErrorC "GitHub API 401: Bad credentials")
  /\ fst (fetchPullRequests in_full (answering 500 None "oops" None) "t" new_client)
     = Throw (mkExn ErrorC "GitHub API 500: oops")
  /\ fst (fetchPullRequests in_full (answering 200 None "{}" (Some graphql_failure))
                            "t" new_client)
     = Throw (mkExn ErrorC "GraphQL error: boom")
  /\ ~ (exists kind : exn_class -> failure_kind,
          (forall e,
              fst (fetchPullRequests in_full (answering 401 None "Bad credentials" None)
                                     "t" new_client) = Throw e ->
              kind (exn_cls e) = AuthError)
          /\ (forall e,
                fst (fetchPullRequests in_full (answering 500 None "oops" None)
                                       "t" new_client) = Throw e ->
                kind (exn_cls e) = TransportError)).
Proof.
  split; [reflexivity|]. split; [reflexivity|]. split; [reflexivity|].
  intros (kind & H401 & H500).
  specialize (H401 _ eq_refl). specialize (H500 _ eq_refl).
  simpl in H401, H500. congruence.
Qed.

End ClientProofs.

(* ================================================================== *)
(** * Properties of the refresh cycle *)
(* ================================================================== *)

Module RefreshProofs.
Import JS GitHub Extension Spec Samples JSFacts ClientProofs.
Local Open Scope list_scope.

Section WithComparison.

Variable cmp : string -> Z -> option comparison.
Variable nt : Z -> string.

(** *** What each half of a cycle leaves alone *)

Lemma updateBadge_frame count b b' :
  _updateBadge cmp nt count b = Ok b' ->
  _client b' = _client b /\ _lastCategories b' = _lastCategories b
  /\ _lastNotificationCount b' = _lastNotificationCount b
  /\ menu b' = menu b /\ console b' = console b.
Proof.
  unfold _updateBadge.
  destruct (gt cmp nt count 0) as [[|]|e]; try discriminate.
  - destruct (gt cmp nt count 99) as [big|e]; try discriminate.
    destruct (if big then Ok "99+"%string else to_string nt count);
      try discriminate.
    intro H. injection H as <-. simpl. auto.
  - intro H. injection H as <-. simpl. auto.
Qed.

(** The badge of a number never throws. *)
Lemma updateBadge_num n b :
  exists b', _updateBadge cmp nt (VNum n) b = Ok b'.
Proof.
  unfold _updateBadge, gt, compare_num.
  destruct (n ?= 0); try (eexists; reflexivity).
  destruct (n ?= 99); eexists; reflexivity.
Qed.

Lemma refresh_prs_frame env t b :
  let b' := refresh_prs nt env t b in
  _client b' = snd (fetchPullRequests nt (net env) t (_client b))
  /\ _lastNotificationCount b' = _lastNotificationCount b
  /\ badge_text b' = badge_text b
  /\ badge_visible b' = badge_visible b.
Proof.
  unfold refresh_prs.
  destruct (fetchPullRequests nt (net env) t (_client b)) as [[[cats prs]|e] c].
  - unfold _buildMenu. destruct (menu_isOpen env); simpl; auto.
    destruct (snd (Menu._buildMenu nt cats)); simpl; auto.
  - simpl. destruct (_lastCategories b); simpl; auto.
Qed.

Lemma refresh_notifications_frame env t b :
  let b' := refresh_notifications cmp nt env t b in
  _client b' = snd (fetchNotifications (net env) t (filters env) (_client b))
  /\ _lastCategories b' = _lastCategories b
  /\ menu b' = menu b.
Proof.
  unfold refresh_notifications.
  destruct (fetchNotifications (net env) t (filters env) (_client b))
    as [[count|e] c].
  - destruct (ge cmp nt count 0) as [[|]|e]; [|simpl; auto|simpl; auto].
    match goal with
    | |- context [_updateBadge cmp nt count ?x] =>
        destruct (_updateBadge cmp nt count x) as [b3|e] eqn:E;
        [destruct (updateBadge_frame count x b3 E) as (Hc & Hl & _ & Hm & _)|]
    end; simpl in *; auto.
  - simpl. auto.
Qed.

Lemma refresh_with_token env b t :
  secret env = LookupReturns (Some t) -> t <> ""%string ->
  _refresh cmp nt env b = refresh_notifications cmp nt env t (refresh_prs nt env t b).
Proof.
  intros Hs Ht. unfold _refresh. rewrite Hs. simpl.
  apply String.eqb_neq in Ht. now rewrite Ht.
Qed.

(** *** A failing pull-request fetch *)

Lemma refresh_prs_failure env t b e c :
  fetchPullRequests nt (net env) t (_client b) = (Throw e, c) ->
  let b' := refresh_prs nt env t b in
  _lastCategories b' = _lastCategories b
  /\ menu b' = match _lastCategories b with
               | None => MessageMenu ("Error: " ++ take 80 (message e))
               | Some _ => menu b
               end.
Proof.
  intro H. unfold refresh_prs. rewrite H. simpl.
  destruct (_lastCategories b) eqn:E; simpl; rewrite ?E; auto.
Qed.

Lemma refresh_failure env b t e c :
  secret env = LookupReturns (Some t) -> t <> ""%string ->
  fetchPullRequests nt (net env) t (_client b) = (Throw e, c) ->
  let b' := _refresh cmp nt env b in
  _lastCategories b' = _lastCategories b
  /\ menu b' = match _lastCategories b with
               | None => MessageMenu ("Error: " ++ take 80 (message e))
               | Some _ => menu b
               end.
Proof.
  intros Hs Ht Hf. simpl. rewrite (refresh_with_token env b t Hs Ht).
  destruct (refresh_notifications_frame env t (refresh_prs nt env t b))
    as (_ & Hl & Hm).
  destruct (refresh_prs_failure env t b e c Hf) as (Hl' & Hm').
  simpl in *. rewrite Hl, Hm. auto.
Qed.

Lemma run_failures envs : forall b cats,
  Forall (pr_fetch_fails nt) envs ->
  _lastCategories b = Some cats ->
  _lastCategories (run cmp nt envs b) = Some cats
  /\ menu (run cmp nt envs b) = menu b.
Proof.
  induction envs as [|env envs IH]; intros b cats Hall Hb; simpl.
  - auto.
  - inversion Hall as [|? ? (t & e & Hs & Ht & Hf) Hrest]; subst.
    destruct (fetchPullRequests nt (net env) t (_client b)) as [r c] eqn:E.
    pose proof (Hf (_client b)) as Hr. rewrite E in Hr. simpl in Hr. subst r.
    destruct (refresh_failure env b t e c Hs Ht E) as (Hl & Hm).
    simpl in Hl, Hm. rewrite Hb in Hl, Hm.
    destruct (IH (_refresh cmp nt env b) cats Hrest Hl) as (Hl' & Hm').
    unfold run in *. rewrite Hl', Hm'. auto.
Qed.

Lemma refresh_success env b t cats prs :
  secret env = LookupReturns (Some t) -> t <> ""%string ->
  fst (fetchPullRequests nt (net env) t (_client b)) = Ok (cats, prs) ->
  let b' := _refresh cmp nt env b in
  _lastCategories b' = Some cats
  /\ menu b' = if menu_isOpen env then menu b else CategoryMenu cats.
Proof.
  intros Hs Ht Hf. simpl. rewrite (refresh_with_token env b t Hs Ht).
  destruct (refresh_notifications_frame env t (refresh_prs nt env t b))
    as (_ & Hl & Hm).
  simpl in *. rewrite Hl, Hm. unfold refresh_prs.
  destruct (fetchPullRequests nt (net env) t (_client b)) as [r c].
  simpl in Hf. subst r. unfold _buildMenu.
  destruct (menu_isOpen env); simpl; auto.
  destruct (snd (Menu._buildMenu nt cats)); simpl; auto.
Qed.

(** C2.  A cycle whose pull-request fetch throws leaves [_lastCategories] as
    it was and puts up the error line only when there were no categories
    yet.  After a cycle whose fetch succeeded, any number of cycles whose
    fetch throws leave the categories of that success in place and the menu
    as the successful cycle left it. *)
Theorem refresh_keeps_last_good :
  (forall env b t e c,
      secret env = LookupReturns (Some t) -> t <> ""%string ->
      fetchPullRequests nt (net env) t (_client b) = (Throw e, c) ->
      _lastCategories (_refresh cmp nt env b) = _lastCategories b
      /\ menu (_refresh cmp nt env b)
         = match _lastCategories b with
           | None => MessageMenu ("Error: " ++ take 80 (message e))
           | Some _ => menu b
           end)
  /\ (forall env0 envs b t0 cats prs,
        secret env0 = LookupReturns (Some t0) -> t0 <> ""%string ->
        fst (fetchPullRequests nt (net env0) t0 (_client b)) = Ok (cats, prs) ->
        Forall (pr_fetch_fails nt) envs ->
        _lastCategories (_refresh cmp nt env0 b) = Some cats
        /\ menu (_refresh cmp nt env0 b)
           = (if menu_isOpen env0 then menu b else CategoryMenu cats)
        /\ _lastCategories (run cmp nt envs (_refresh cmp nt env0 b)) = Some cats
        /\ menu (run cmp nt envs (_refresh cmp nt env0 b))
           = menu (_refresh cmp nt env0 b)).
Proof.
  split.
  - intros env b t e c Hs Ht Hf. exact (refresh_failure env b t e c Hs Ht Hf).
  - intros env0 envs b t0 cats prs Hs Ht Hf Hall.
    destruct (refresh_success env0 b t0 cats prs Hs Ht Hf) as (Hl & Hm).
    simpl in Hl, Hm.
    destruct (run_failures envs (_refresh cmp nt env0 b) cats Hall Hl) as (Hl' & Hm').
    auto.
Qed.

(** *** No token *)

Lemma no_token_is_no_error :
  NO_TOKEN <> TOKEN_READ_FAILED
  /\ forall msg, NO_TOKEN <> ("Error: " ++ msg)%string.
Proof. split; [discriminate|]. intro msg. discriminate. Qed.

(** C8.  With no token in the keyring (the lookup returns [null], or an
    empty string) a cycle shows the line [NO_TOKEN], which the view reads as
    unconfigured and which no error path of the cycle can produce; it hides
    the badge; it hands no message to the session and leaves the client, the
    console and the cached categories and count as they were. *)
Theorem refresh_without_token env b token :
  secret env = LookupReturns token ->
  truthy_str token = false ->
  let b' := _refresh cmp nt env b in
  menu b' = MessageMenu NO_TOKEN
  /\ view_of (menu b') = Unconfigured
  /\ (forall msg, view_of (MessageMenu ("Error: " ++ msg)) <> Unconfigured)
  /\ view_of (MessageMenu TOKEN_READ_FAILED) <> Unconfigured
  /\ badge_visible b' = false
  /\ wire (_client b') = wire (_client b)
  /\ _client b' = _client b
  /\ console b' = console b
  /\ _lastCategories b' = _lastCategories b
  /\ _lastNotificationCount b' = _lastNotificationCount b.
Proof.
  intros Hs Ht. unfold _refresh. rewrite Hs, Ht.
  unfold _updateBadge, gt, compare_num. simpl.
  repeat split; try reflexivity.
  - intros msg. simpl. discriminate.
  - discriminate.
Qed.

(** *** Not modified *)

Lemma fetchNotifications_not_modified net t filterReasons c lm text parsed :
  net (new_message NOTIFICATIONS_URL t "GET" None c)
  = Response 304 lm text parsed ->
  fetchNotifications net t filterReasons c
  = (Ok UNCHANGED,
     mkClient (_lastNotificationPoll c)
              (wire c ++ [new_message NOTIFICATIONS_URL t "GET" None c])).
Proof.
  intro H. unfold fetchNotifications, bindM, _request, _sendAsync.
  rewrite H. reflexivity.
Qed.

(** C3.  When the notification endpoint answers 304, [fetchNotifications]
    returns [UNCHANGED], which is no count from 0 upwards, and leaves the
    stored [Last-Modified] alone; the cycle then leaves the cached count and
    the badge (its text and whether it shows) as they were. *)
Theorem not_modified_changes_nothing env b t :
  secret env = LookupReturns (Some t) -> t <> ""%string ->
  (forall req, req_url req = NOTIFICATIONS_URL ->
               exists lm text parsed, net env req = Response 304 lm text parsed) ->
  (forall filterReasons c,
      fst (fetchNotifications (net env) t filterReasons c) = Ok UNCHANGED
      /\ _lastNotificationPoll (snd (fetchNotifications (net env) t filterReasons c))
         = _lastNotificationPoll c)
  /\ (forall n, 0 <= n -> UNCHANGED <> VNum n)
  /\ _lastNotificationCount (_refresh cmp nt env b) = _lastNotificationCount b
  /\ badge_text (_refresh cmp nt env b) = badge_text b
  /\ badge_visible (_refresh cmp nt env b) = badge_visible b
  /\ _lastNotificationPoll (_client (_refresh cmp nt env b))
     = _lastNotificationPoll (_client b).
Proof.
  intros Hs Ht Hnet.
  assert (H304 : forall filterReasons c,
             fetchNotifications (net env) t filterReasons c
             = (Ok UNCHANGED,
                mkClient (_lastNotificationPoll c)
                  (wire c ++ [new_message NOTIFICATIONS_URL t "GET" None c]))).
  { intros fr c.
    destruct (Hnet (new_message NOTIFICATIONS_URL t "GET" None c) eq_refl)
      as (lm & text & parsed & H).
    exact (fetchNotifications_not_modified _ _ _ _ _ _ _ H). }
  split; [|split].
  - intros fr c. rewrite H304. simpl. auto.
  - intros n Hn E. unfold UNCHANGED in E. injection E as E. lia.
  - rewrite (refresh_with_token env b t Hs Ht).
    destruct (refresh_prs_frame env t b) as (Hc & Hn & Hbt & Hbv).
    simpl in Hc, Hn, Hbt, Hbv.
    unfold refresh_notifications. rewrite H304.
    change (ge cmp nt UNCHANGED 0) with (@Ok bool false). simpl.
    rewrite Hn, Hbt, Hbv, Hc, fetchPullRequests_poll. auto.
Qed.

(** *** The stored Last-Modified *)

Lemma refresh_client env b t :
  secret env = LookupReturns (Some t) -> t <> ""%string ->
  _client (_refresh cmp nt env b)
  = snd (fetchNotifications (net env) t (filters env)
           (snd (fetchPullRequests nt (net env) t (_client b)))).
Proof.
  intros Hs Ht. rewrite (refresh_with_token env b t Hs Ht).
  destruct (refresh_notifications_frame env t (refresh_prs nt env t b)) as (Hc & _).
  destruct (refresh_prs_frame env t b) as (Hc' & _).
  simpl in *. now rewrite Hc, Hc'.
Qed.

Lemma fetchNotifications_stores net t filterReasons c s lm text parsed :
  net (new_message NOTIFICATIONS_URL t "GET" None c)
  = Response s (Some lm) text parsed ->
  200 <= s < 300 -> lm <> ""%string ->
  _lastNotificationPoll (snd (fetchNotifications net t filterReasons c))
  = Some lm.
Proof.
  intros Hnet Hs Hlm. rewrite fetchNotifications_client.
  destruct (status_2xx s Hs) as [E1 E2].
  unfold _request, _sendAsync. rewrite Hnet, E1, E2.
  rewrite notifications_is_notifications. simpl.
  apply String.eqb_neq in Hlm. rewrite Hlm. simpl.
  destruct parsed; reflexivity.
Qed.

(** Over a whole cycle the stored [Last-Modified] stays, unless a token was
    at hand and the notification request was answered 2xx with the header. *)
Lemma refresh_poll_cases env b :
  _lastNotificationPoll (_client (_refresh cmp nt env b))
  = _lastNotificationPoll (_client b)
  \/ exists t req s lm text parsed,
       secret env = LookupReturns (Some t)
       /\ req_url req = NOTIFICATIONS_URL
       /\ net env req = Response s (Some lm) text parsed
       /\ 200 <= s < 300 /\ lm <> ""%string
       /\ _lastNotificationPoll (_client (_refresh cmp nt env b)) = Some lm.
Proof.
  destruct (secret env) as [msg|token] eqn:Hs.
  - left. unfold _refresh. rewrite Hs. reflexivity.
  - destruct (truthy_str token) eqn:Ht.
    + destruct token as [t|]; [|discriminate].
      assert (Hne : t <> ""%string).
      { intros ->. discriminate. }
      rewrite (refresh_client env b t Hs Hne), fetchNotifications_client.
      destruct (request_poll (net env) NOTIFICATIONS_URL t "GET" None
                  (snd (fetchPullRequests nt (net env) t (_client b))))
        as [H|(_ & s & lm & text & parsed & Hnet & Hr & Hlm & Hnew)].
      * left. simpl in H. now rewrite H, fetchPullRequests_poll.
      * right. exists t. eexists. exists s, lm, text, parsed.
        split; [reflexivity|]. split; [|split; [exact Hnet|auto]].
        reflexivity.
    + left. unfold _refresh. rewrite Hs, Ht.
      unfold _updateBadge, gt, compare_num. reflexivity.
Qed.

(** C9.  The stored [Last-Modified] changes in a call only if the call went
    to the notification endpoint and was answered 2xx with a non-empty
    [Last-Modified], which it then holds; a transport failure, a 304, any
    other status outside 200..299, an answer without the header, and any
    call to another URL, a pull-request fetch among them, leave it alone.
    The same holds of a whole refresh cycle.  It lives in the client, which
    the button keeps from cycle to cycle: the notification request of the
    next cycle carries it as [If-Modified-Since]. *)
Theorem last_modified_is_kept :
  (forall net url token method body c,
      _lastNotificationPoll (snd (_request net url token method body c))
      <> _lastNotificationPoll c ->
      String.prefix NOTIFICATIONS_URL url = true
      /\ exists s lm text parsed,
           net (new_message url token method body c)
           = Response s (Some lm) text parsed
           /\ 200 <= s < 300 /\ lm <> ""%string
           /\ _lastNotificationPoll (snd (_request net url token method body c))
              = Some lm)
  /\ (forall net url token method body c,
        let kept := _lastNotificationPoll (snd (_request net url token method body c))
                    = _lastNotificationPoll c in
        let answer := net (new_message url token method body c) in
        (forall msg, answer = NetworkFailure msg -> kept)
        /\ (forall s lm text parsed,
              answer = Response s lm text parsed ->
              s = 304 \/ s < 200 \/ 300 <= s -> kept)
        /\ (forall s text parsed, answer = Response s None text parsed -> kept)
        /\ (String.prefix NOTIFICATIONS_URL url = false -> kept))
  /\ (forall net token c,
        _lastNotificationPoll (snd (fetchPullRequests nt net token c))
        = _lastNotificationPoll c)
  /\ (forall net token filterReasons c s lm text parsed,
        net (new_message NOTIFICATIONS_URL token "GET" None c)
        = Response s (Some lm) text parsed ->
        200 <= s < 300 -> lm <> ""%string ->
        _lastNotificationPoll (snd (fetchNotifications net token filterReasons c))
        = Some lm)
  /\ (forall env b,
        _lastNotificationPoll (_client (_refresh cmp nt env b))
        <> _lastNotificationPoll (_client b) ->
        exists t req s lm text parsed,
          secret env = LookupReturns (Some t)
          /\ req_url req = NOTIFICATIONS_URL
          /\ net env req = Response s (Some lm) text parsed
          /\ 200 <= s < 300 /\ lm <> ""%string
          /\ _lastNotificationPoll (_client (_refresh cmp nt env b)) = Some lm)
  /\ (forall env1 env2 b t1 t2 s lm text parsed,
        secret env1 = LookupReturns (Some t1) -> t1 <> ""%string ->
        (forall req, req_url req = NOTIFICATIONS_URL ->
                     net env1 req = Response s (Some lm) text parsed) ->
        200 <= s < 300 -> lm <> ""%string ->
        secret env2 = LookupReturns (Some t2) -> t2 <> ""%string ->
        _lastNotificationPoll (_client (_refresh cmp nt env1 b)) = Some lm
        /\ exists earlier req,
             wire (_client (run cmp nt [env1; env2] b)) = earlier ++ [req]
             /\ req_url req = NOTIFICATIONS_URL
             /\ if_modified_since req = Some lm).
Proof.
  assert (Hpoll := request_poll).
  split; [|split; [|split; [|split; [|split]]]].
  - intros net url token method body c Hne.
    destruct (Hpoll net url token method body c) as [H|H]; [contradiction|exact H].
  - intros net url token method body c kept answer. subst kept answer.
    destruct (Hpoll net url token method body c)
      as [H|(Hp & s0 & lm0 & text0 & parsed0 & Hnet & Hs & Hlm & Hnew)].
    + repeat split; intros; exact H.
    + repeat split.
      * intros msg E. rewrite E in Hnet. discriminate.
      * intros s lm text parsed E Hbad. rewrite E in Hnet.
        injection Hnet as -> _ _ _. lia.
      * intros s text parsed E. rewrite E in Hnet. discriminate.
      * intro E. rewrite E in Hp. discriminate.
  - exact (fetchPullRequests_poll nt).
  - exact fetchNotifications_stores.
  - intros env b Hne.
    destruct (refresh_poll_cases env b) as [H|H]; [contradiction|exact H].
  - intros env1 env2 b t1 t2 s lm text parsed Hs1 Ht1 Hnet Hs Hlm Hs2 Ht2.
    assert (H1 : _lastNotificationPoll (_client (_refresh cmp nt env1 b)) = Some lm).
    { rewrite (refresh_client env1 b t1 Hs1 Ht1).
      apply (fetchNotifications_stores _ _ _ _ s lm text parsed); auto. }
    split; [exact H1|].
    unfold run. simpl.
    rewrite (refresh_client env2 (_refresh cmp nt env1 b) t2 Hs2 Ht2).
    rewrite fetchNotifications_client, request_wire.
    eexists. eexists. split; [reflexivity|]. split; [reflexivity|].
    unfold new_message. simpl.
    rewrite fetchPullRequests_poll, H1. simpl.
    apply String.eqb_neq in Hlm. now rewrite Hlm.
Qed.

End WithComparison.

Lemma refresh_keeps_last_good_witness :
  _lastCategories (run never_a_number in_full [cycle_down; cycle_down]
                       (_refresh never_a_number in_full cycle_ok init))
  = Some (categorizePRs
            [mkPR (VNum 7) VUndefined VUndefined (VBool false) VUndefined
                  "octo/demo" (VStr "demo") (VStr "APPROVED") [] none []]).
Proof.
  refine (proj1 (proj2 (proj2 (proj2 (refresh_keeps_last_good never_a_number in_full)
            cycle_ok [cycle_down; cycle_down] init "t"%string _ _
            eq_refl _ eq_refl _)))).
  - discriminate.
  - repeat constructor;
      (exists "t"%string; eexists; split; [reflexivity|];
       split; [discriminate|]; intro c; reflexivity).
Defined.

Lemma refresh_without_token_witness :
  menu (_refresh never_a_number in_full cycle_no_token init) = MessageMenu NO_TOKEN
  /\ wire (_client (_refresh never_a_number in_full cycle_no_token init)) = [].
Proof.
  destruct (refresh_without_token never_a_number in_full cycle_no_token init None
              eq_refl eq_refl) as (Hm & _ & _ & _ & _ & Hw & _).
  split; [exact Hm|exact Hw].
Defined.

Lemma not_modified_changes_nothing_witness :
  fst (fetchNotifications (net cycle_not_modified) "t" [] new_client)
  = Ok UNCHANGED
  /\ badge_visible (_refresh never_a_number in_full cycle_not_modified init)
     = badge_visible init.
Proof.
  destruct (not_modified_changes_nothing never_a_number in_full cycle_not_modified
              init "t"%string eq_refl) as (Hf & _ & _ & _ & Hv & _).
  - discriminate.
  - intros req _. exists None, ""%string, None. reflexivity.
  - split; [exact (proj1 (Hf [] new_client))|exact Hv].
Defined.

Lemma last_modified_is_kept_witness :
  exists earlier req,
    wire (_client (run never_a_number in_full [cycle_dated; cycle_not_modified] init))
    = earlier ++ [req]
    /\ req_url req = NOTIFICATIONS_URL
    /\ if_modified_since req = Some "Mon, 02 Nov 2026 10:00:00 GMT"%string.
Proof.
  refine (proj2 (proj2 (proj2 (proj2 (proj2
            (proj2 (last_modified_is_kept never_a_number in_full)))))
            cycle_dated cycle_not_modified init "t"%string "t"%string
            200 "Mon, 02 Nov 2026 10:00:00 GMT"%string "[]"%string
            (Some (VArr [])) eq_refl _ _ _ _ eq_refl _)).
  - discriminate.
  - intros req _. reflexivity.
  - lia.
  - discriminate.
  - discriminate.
Defined.

End RefreshProofs.

(* ================================================================== *)
(** * The model at work on the sample documents *)
(* ================================================================== *)

Module Examples.
Import JS GitHub Extension Spec Samples.
Local Open Scope list_scope.

Example normalize_bare_node :
  normalizePR in_full bare_node
  = Ok (mkPR (VNum 7) (VStr "Fix") VUndefined (VBool false) VUndefined
             "octo/demo" (VStr "demo") VNull [] none []).
Proof. reflexivity. Qed.

Example normalize_checked_node :
  match normalizePR in_full checked_node with
  | Ok p => (ciStatus p, map check_status (checks p), map check_name (checks p))
  | Throw _ => (none, [], [])
  end
  = (failure,
     [success; failure; pending; failure; pending],
     [VStr "build"; VStr "lint"; VStr "e2e"; VStr "ci/legacy"; VStr "ci/new"]).
Proof. reflexivity. Qed.

(** Outside the answer's shape the function can throw: a node without a
    repository, a [null] among the reviews, a [null] among the contexts. *)
Example normalize_without_repository :
  normalizePR in_full (VObj [("number", VNum 1)])
  = Throw (type_error "cannot read property owner").
Proof. reflexivity. Qed.

Example normalize_null_review :
  normalizePR in_full (VObj [repository_of "octo" "demo";
                     ("reviews", VObj [("nodes", VArr [VNull])])])
  = Throw (type_error "cannot read property author").
Proof. reflexivity. Qed.

(** A draft goes to the draft bucket whatever its review decision. *)
Example categorize_draft_first :
  match normalizePR in_full checked_node, normalizePR in_full bare_node with
  | Ok d, Ok p =>
      map (fun c => map number c)
          [approved (categorizePRs [d; p]); changesRequested (categorizePRs [d; p]);
           reviewRequired (categorizePRs [d; p]); draft (categorizePRs [d; p])]
  | _, _ => []
  end
  = [[]; []; [VNum 7]; [VNum 11]].
Proof. reflexivity. Qed.

Example fetch_one_approved :
  fst (fetchPullRequests in_full (net cycle_ok) "t" new_client)
  = Ok (categorizePRs
          [mkPR (VNum 7) VUndefined VUndefined (VBool false) VUndefined
                "octo/demo" (VStr "demo") (VStr "APPROVED") [] none []],
        [mkPR (VNum 7) VUndefined VUndefined (VBool false) VUndefined
              "octo/demo" (VStr "demo") (VStr "APPROVED") [] none []]).
Proof. reflexivity. Qed.

(** A 304 on the GraphQL endpoint hands [null] to [fetchPullRequests], whose
    [data.errors] then throws. *)
Example fetch_prs_not_modified :
  fst (fetchPullRequests in_full (net cycle_not_modified) "t" new_client)
  = Throw (type_error "cannot read property errors").
Proof. reflexivity. Qed.

(** The first failure ever is shown; the badge of a hundred reads 99+. *)
Example first_failure_is_shown :
  menu (_refresh never_a_number in_full cycle_down init)
  = MessageMenu "Error: GitHub API 503: Service Unavailable".
Proof. reflexivity. Qed.

Example badge_of_a_hundred :
  match _updateBadge never_a_number in_full (VNum 100) init with
  | Ok b => Some (badge_text b, badge_visible b)
  | Throw _ => None
  end
  = Some ("99+"%string, true).
Proof. reflexivity. Qed.

Example badge_of_three :
  match _updateBadge never_a_number in_full (VNum 3) init with
  | Ok b => Some (badge_text b, badge_visible b)
  | Throw _ => None
  end
  = Some ("3"%string, true).
Proof. reflexivity. Qed.

(** An object that carries a [toString] key of its own has no text: the
    template literal that builds [repo] throws on such a login. *)
Example normalize_unprintable_login :
  normalizePR in_full unprintable_login_node
  = Throw (type_error "cannot convert object to primitive value").
Proof. reflexivity. Qed.

(** An object without one prints as every plain object does, and a safe
    integer in full. *)
Example normalize_object_login :
  match normalizePR in_full
          (VObj [("repository",
                  VObj [("owner", VObj [("login", VObj [("id", VNum 1)])]);
                        ("name", VNum 42)])])
  with
  | Ok p => repo p
  | Throw _ => ""%string
  end
  = "[object Object]/42"%string.
Proof. reflexivity. Qed.

(** Two requests per cycle with a token: the GraphQL POST, then the GET of
    the notifications. *)
Example two_requests_per_cycle :
  map (fun r => (req_method r, req_url r))
      (wire (_client (_refresh never_a_number in_full cycle_ok init)))
  = [("POST"%string, GRAPHQL_URL); ("GET"%string, NOTIFICATIONS_URL)].
Proof. reflexivity. Qed.

End Examples.

(* ================================================================== *)
(** * More on the normalizer: when it returns, and the checks *)
(* ================================================================== *)

Module NormalizerCoverage.
Import JS GitHub Spec Shape Samples JSFacts NormalizerProofs.
Local Open Scope list_scope.

Section WithEngine.

Variable nt : Z -> string.

Lemma check_of_members ctx :
  has_members ctx = true -> exists c, check_of ctx = Ok c.
Proof.
  destruct ctx; try discriminate; intros _; unfold check_of, bind.
  - eexists. reflexivity.
  - simpl. destruct (assoc "conclusion" props); eexists; reflexivity.
Qed.

Lemma check_of_primitive ctx :
  has_members ctx = false -> exists e, check_of ctx = Throw e /\ is_type_error e.
Proof.
  destruct ctx; try discriminate; intros _; eexists; split; reflexivity.
Qed.

Lemma map_result_check_of_iff xs :
  (forallb has_members xs = true -> exists cs, map_result check_of xs = Ok cs)
  /\ (forallb has_members xs = false ->
      exists e, map_result check_of xs = Throw e /\ is_type_error e).
Proof.
  induction xs as [|x xs [IHok IHno]]; simpl.
  - split; [now exists []|discriminate].
  - destruct (has_members x) eqn:Hx; simpl.
    + destruct (check_of_members x Hx) as [c ->]. split; intro H.
      * destruct (IHok H) as [cs ->]. now eexists.
      * destruct (IHno H) as (e & -> & He). now exists e.
    + destruct (check_of_primitive x Hx) as (e & -> & He).
      split; [discriminate|]. intros _. now exists e.
Qed.

Lemma review_step_null m r :
  nullish r = true -> exists e, review_step m r = Throw e /\ is_type_error e.
Proof.
  intro H. unfold review_step, get, bind. rewrite H.
  eexists. split; reflexivity.
Qed.

Lemma for_of_review_step_iff rs : forall m,
  (forallb (fun r => negb (nullish r)) rs = true ->
   for_of review_step rs m = Ok (fold_left record_review rs m))
  /\ (forallb (fun r => negb (nullish r)) rs = false ->
      exists e, for_of review_step rs m = Throw e /\ is_type_error e).
Proof.
  induction rs as [|r rs IH]; intro m; simpl.
  - split; [reflexivity|discriminate].
  - destruct (nullish r) eqn:Hr; simpl.
    + destruct (review_step_null m r Hr) as (e & -> & He).
      split; [discriminate|]. intros _. now exists e.
    + rewrite (review_step_record m r Hr). apply IH.
Qed.

Lemma chars_not_null s : forallb (fun r => negb (nullish r)) (chars s) = true.
Proof. induction s as [|c s IH]; simpl; auto. Qed.

(** The contexts and the reviews, each on its own. *)
Lemma checks_outcome v :
  (contexts_ok v = true -> exists cs, array_map check_of v = Ok cs)
  /\ (contexts_ok v = false ->
      exists e, array_map check_of v = Throw e /\ is_type_error e).
Proof.
  destruct v; simpl;
    try (split; [discriminate|intros _; eexists; split; reflexivity]).
  apply map_result_check_of_iff.
Qed.

Lemma reviews_outcome v :
  (reviews_ok v = true ->
   exists rs, iterate v = Ok rs
              /\ for_of review_step rs [] = Ok (fold_left record_review rs []))
  /\ (reviews_ok v = false ->
      (exists e, iterate v = Throw e /\ is_type_error e)
      \/ exists rs e, iterate v = Ok rs
                      /\ for_of review_step rs [] = Throw e /\ is_type_error e).
Proof.
  destruct v; simpl;
    try (split; [discriminate|intros _; left; eexists; split; reflexivity]).
  - split; [|discriminate]. intros _. exists (chars s). split; [reflexivity|].
    apply for_of_review_step_iff, chars_not_null.
  - destruct (for_of_review_step_iff xs []) as [Hok Hno]. split; intro H.
    + exists xs. split; [reflexivity|auto].
    + right. destruct (Hno H) as (e & He & Ht). now exists xs, e.
Qed.

(** The two outcomes of [normalizePR], by the shape of the node. *)
Lemma normalizePR_outcome (node : value) :
  (normalizable node = true -> exists p, normalizePR nt node = Ok p)
  /\ (normalizable node = false ->
      exists e, normalizePR nt node = Throw e /\ is_type_error e).
Proof.
  unfold normalizable, normalizePR, get, bind.
  destruct (nullish node) eqn:Hn; simpl.
  { split; [discriminate|]. intros _. eexists. split; reflexivity. }
  destruct (checks_outcome (context_nodes (rollup_of node))) as [Cok Cno].
  destruct (contexts_ok (context_nodes (rollup_of node))) eqn:Hc; simpl.
  2:{ split; [discriminate|]. intros _.
      destruct (Cno eq_refl) as (e & -> & He). now exists e. }
  destruct (Cok eq_refl) as [cs ->].
  destruct (reviews_outcome (review_nodes node)) as [Rok Rno].
  destruct (reviews_ok (review_nodes node)) eqn:Hr; simpl.
  2:{ split; [discriminate|]. intros _.
      destruct (Rno eq_refl) as [(e & -> & He)|(rs & e & -> & -> & He)];
        now exists e. }
  destruct (Rok eq_refl) as (rs & -> & ->).
  destruct (nullish (get_own node "repository")) eqn:Hrepo; simpl.
  { split; [discriminate|]. intros _. eexists. split; reflexivity. }
  destruct (nullish (get_own (get_own node "repository") "owner")) eqn:Hown;
    simpl.
  { split; [discriminate|]. intros _. eexists. split; reflexivity. }
  destruct (to_string_outcome nt
              (get_own (get_own (get_own node "repository") "owner") "login"))
    as [Lok Lno].
  destruct (printable
              (get_own (get_own (get_own node "repository") "owner") "login"))
    eqn:Hlogin; simpl.
  2:{ split; [discriminate|]. intros _.
      destruct (Lno eq_refl) as (e & -> & He). now exists e. }
  destruct (Lok eq_refl) as [login_text ->].
  destruct (to_string_outcome nt (get_own (get_own node "repository") "name"))
    as [Nok Nno].
  destruct (printable (get_own (get_own node "repository") "name"))
    eqn:Hname; simpl.
  2:{ split; [discriminate|]. intros _.
      destruct (Nno eq_refl) as (e & -> & He). now exists e. }
  destruct (Nok eq_refl) as [name_text ->].
  split; [|discriminate]. intros _. eexists. reflexivity.
Qed.

(** X1.  [normalizePR] returns exactly on the nodes that are not nullish,
    whose contexts are an array of objects or arrays, whose reviews are a
    string or an array without [null], whose repository and repository owner
    are not nullish, and whose owner login and repository name convert to a
    string (neither is, nor holds as an element of nested arrays, an object
    with a [toString] key of its own); on every other node it throws a
    [TypeError]. *)
Theorem normalizePR_returns_iff (node : value) :
  ((exists p, normalizePR nt node = Ok p) <-> normalizable node = true)
  /\ ((exists e, normalizePR nt node = Throw e /\ is_type_error e)
      <-> normalizable node = false).
Proof.
  destruct (normalizePR_outcome node) as [Hok Hno].
  destruct (normalizable node) eqn:E.
  - specialize (Hok eq_refl). destruct Hok as [p Hp]. split; split; auto.
    + intros _. now exists p.
    + intros (e & He & _). congruence.
  - specialize (Hno eq_refl). destruct Hno as (e & He & Ht).
    split; split; auto.
    + intros [p Hp]. congruence.
    + intros _. now exists e.
Qed.


(** *** The checks *)

Lemma normalizePR_checks node p :
  normalizePR nt node = Ok p ->
  array_map check_of (context_nodes (rollup_of node)) = Ok (checks p).
Proof.
  unfold normalizePR, get, bind.
  destruct (nullish node); [discriminate|].
  destruct (array_map check_of _) as [cs|e]; [|discriminate].
  destruct (iterate _) as [rs|e]; [|discriminate].
  destruct (for_of review_step rs []) as [m|e]; [|discriminate].
  destruct (nullish (get_own node "repository")); [discriminate|].
  destruct (nullish (get_own (get_own node "repository") "owner"));
    [discriminate|].
  destruct (to_string nt _) as [login_text|e]; [|discriminate].
  destruct (to_string nt _) as [name_text|e]; [|discriminate].
  intro H. injection H as <-. reflexivity.
Qed.

Lemma map_result_Forall2 {A B} (f : A -> result B) xs : forall ys,
  map_result f xs = Ok ys -> Forall2 (fun x y => f x = Ok y) xs ys.
Proof.
  induction xs as [|x xs IH]; simpl; intros ys H.
  - injection H as <-. constructor.
  - destruct (f x) as [y|e] eqn:Hx; [|discriminate].
    destruct (map_result f xs) as [ys'|e]; [|discriminate].
    injection H as <-. constructor; auto.
Qed.

Lemma check_of_rel ctx c : check_of ctx = Ok c -> check_rel ctx c.
Proof.
  unfold check_of, check_rel, bind.
  destruct (has_property "conclusion" ctx) as [[|]|e]; [| |discriminate];
    intro H; injection H as <-; simpl.
  - destruct (is_str (get_own ctx "status") "COMPLETED") eqn:Es;
      [apply is_str_spec in Es|apply is_str_false in Es].
    + destruct (is_str (get_own ctx "conclusion") "SUCCESS") eqn:Ec;
        [apply is_str_spec in Ec|apply is_str_false in Ec];
        (split; [discriminate|]); repeat split; intros;
          try discriminate; try tauto; try (intuition congruence).
    + (split; [discriminate|]); repeat split; intros;
        try discriminate; try tauto; try (intuition congruence).
  - destruct (is_str (get_own ctx "state") "SUCCESS") eqn:Es;
      [apply is_str_spec in Es|apply is_str_false in Es].
    + rewrite Es. (split; [discriminate|]); repeat split; intros;
        try discriminate; try reflexivity; try (intuition congruence).
    + destruct (is_str (get_own ctx "state") "FAILURE") eqn:Ef;
        [apply is_str_spec in Ef|apply is_str_false in Ef]; simpl.
      * (split; [discriminate|]); repeat split; intros;
          try discriminate; try tauto; try (intuition congruence).
      * destruct (is_str (get_own ctx "state") "ERROR") eqn:Ee;
          [apply is_str_spec in Ee|apply is_str_false in Ee];
          (split; [discriminate|]); repeat split; intros;
            try discriminate; try tauto; try (intuition congruence).
Qed.

(** X2.  When [normalizePR] returns, its checks stand one for one, in
    order, for the contexts of the rollup.  A context with a [conclusion] key
    is a check run: [success] iff completed with conclusion SUCCESS, [failure]
    iff completed with any other conclusion ([null] included), [pending] iff
    not completed.  Any other context is a status context: [success] iff its
    state is SUCCESS, [failure] iff FAILURE or ERROR, [pending] otherwise.  No
    check has the status [none]. *)
Theorem normalizePR_checks_table (node : value) (p : pr) :
  normalizePR nt node = Ok p ->
  exists ctxs,
    context_nodes (rollup_of node) = VArr ctxs
    /\ List.length (checks p) = List.length ctxs
    /\ Forall2 check_rel ctxs (checks p).
Proof.
  intro H. apply normalizePR_checks in H.
  destruct (context_nodes (rollup_of node)) as [ | | | | |ctxs| ];
    try discriminate.
  exists ctxs. split; [reflexivity|]. simpl in H.
  apply map_result_Forall2 in H.
  split.
  - symmetry. exact (Forall2_length H).
  - eapply Forall2_impl; [|exact H]. intros ctx c. apply check_of_rel.
Qed.

End WithEngine.

(** With a node that carries checks, one that lacks its repository and one
    whose login has no text. *)
Lemma normalizePR_returns_iff_examples :
  (exists p, normalizePR in_full checked_node = Ok p)
  /\ (exists e, normalizePR in_full (VObj [("number", VNum 1)]) = Throw e
                /\ is_type_error e)
  /\ exists e, normalizePR in_full unprintable_login_node = Throw e
               /\ is_type_error e.
Proof.
  split; [|split].
  - apply (proj1 (normalizePR_returns_iff in_full checked_node)). reflexivity.
  - apply (proj2 (normalizePR_returns_iff in_full (VObj [("number", VNum 1)]))).
    reflexivity.
  - apply (proj2 (normalizePR_returns_iff in_full unprintable_login_node)).
    reflexivity.
Defined.

Lemma normalizePR_checks_table_witness :
  exists p, normalizePR in_full checked_node = Ok p
    /\ exists ctxs,
         context_nodes (rollup_of checked_node) = VArr ctxs
         /\ List.length (checks p) = List.length ctxs
         /\ Forall2 check_rel ctxs (checks p).
Proof.
  eexists. split; [reflexivity|].
  apply (normalizePR_checks_table in_full checked_node). reflexivity.
Defined.

End NormalizerCoverage.

(* ================================================================== *)
(** * More on the client: requests made, answers read *)
(* ================================================================== *)

Module ClientCoverage.
Import JS GitHub Spec Shape Samples JSFacts NormalizerProofs ClientProofs.
Import NormalizerCoverage.
Local Open Scope list_scope.

(** *** What goes on the wire *)

(** X3.  Whatever the server answers, a pull-request fetch hands the session
    exactly one message, a POST of [PR_QUERY] to the GraphQL URL that never
    carries [If-Modified-Since], and a notification fetch exactly one, a GET
    without body to the notification URL that carries the stored
    [Last-Modified] when there is one; both carry the bearer token and
    accept JSON.  Neither tries again. *)
Theorem each_fetch_sends_one_message nt net token filterReasons c :
  (exists m,
      wire (snd (fetchPullRequests nt net token c)) = wire c ++ [m]
      /\ req_method m = "POST"%string /\ req_url m = GRAPHQL_URL
      /\ authorization m = ("Bearer " ++ token)%string
      /\ accept m = "application/json"%string
      /\ if_modified_since m = None
      /\ req_body m = Some (VObj [("query", VStr PR_QUERY)]))
  /\ (exists m,
        wire (snd (fetchNotifications net token filterReasons c)) = wire c ++ [m]
        /\ req_method m = "GET"%string /\ req_url m = NOTIFICATIONS_URL
        /\ authorization m = ("Bearer " ++ token)%string
        /\ accept m = "application/json"%string
        /\ if_modified_since m
           = (if truthy_str (_lastNotificationPoll c)
              then _lastNotificationPoll c else None)
        /\ req_body m = None).
Proof.
  split.
  - rewrite fetchPullRequests_client, request_wire.
    eexists. split; [reflexivity|]. repeat split.
  - rewrite fetchNotifications_client, request_wire.
    eexists. split; [reflexivity|]. repeat split.
Qed.

(** *** Reading a good answer to the query *)

Lemma map_result_all {A B} (f : A -> result B) xs :
  (forall x, In x xs -> exists y, f x = Ok y) ->
  exists ys, map_result f xs = Ok ys.
Proof.
  induction xs as [|x xs IH]; simpl; intro H.
  - now exists [].
  - destruct (H x (or_introl eq_refl)) as [y ->].
    destruct IH as [ys ->]; [intros; apply H; now right|]. now eexists.
Qed.

Lemma map_result_one_throws {A B} (f : A -> result B) (P : exn -> Prop) xs :
  (forall x e, f x = Throw e -> P e) ->
  (exists x, In x xs /\ exists e, f x = Throw e) ->
  exists e, map_result f xs = Throw e /\ P e.
Proof.
  intros HP. induction xs as [|x xs IH]; simpl; intros (x0 & Hin & e0 & He0).
  - contradiction.
  - destruct (f x) as [y|e] eqn:Hx.
    + destruct Hin as [->|Hin]; [congruence|].
      destruct IH as (e & -> & He); [now exists x0; split; [|exists e0]|].
      now exists e.
    + exists e. split; [reflexivity|]. now apply (HP x).
Qed.

(** The answer as [fetchPullRequests] reads it once [_request] has returned
    [data]. *)
Lemma fetchPullRequests_reads nt net token c s lm text data :
  net (new_message GRAPHQL_URL token "POST"
                   (Some (VObj [("query", VStr PR_QUERY)])) c)
  = Response s lm text (Some data) ->
  200 <= s < 300 ->
  nullish data = false ->
  no_errors data = true ->
  fst (fetchPullRequests nt net token c)
  = match array_map (normalizePR nt) (pr_nodes data) with
    | Ok allPRs => Ok (categorizePRs allPRs, allPRs)
    | Throw e => Throw e
    end.
Proof.
  intros Hnet Hs Hdata Herr.
  destruct (status_2xx s Hs) as [E1 E2].
  unfold fetchPullRequests, bindM, _request, _sendAsync.
  rewrite Hnet, E1, E2, graphql_is_not_notifications.
  unfold lift, get. rewrite Hdata.
  unfold no_errors in Herr. apply negb_true_iff in Herr. rewrite Herr.
  fold (pr_nodes data).
  destruct (array_map (normalizePR nt) (pr_nodes data)); reflexivity.
Qed.

(** X4.  A 2xx answer without errors whose nodes all have the shape
    [normalizePR] returns on yields the nodes normalized one for one, in the
    order of the answer, together with their categories. *)
Theorem fetchPullRequests_success nt net token c s lm text data ns :
  net (new_message GRAPHQL_URL token "POST"
                   (Some (VObj [("query", VStr PR_QUERY)])) c)
  = Response s lm text (Some data) ->
  200 <= s < 300 ->
  nullish data = false ->
  no_errors data = true ->
  pr_nodes data = VArr ns ->
  forallb normalizable ns = true ->
  exists prs,
    fst (fetchPullRequests nt net token c) = Ok (categorizePRs prs, prs)
    /\ List.length prs = List.length ns
    /\ Forall2 (fun n p => normalizePR nt n = Ok p) ns prs.
Proof.
  intros Hnet Hs Hdata Herr Hnodes Hall.
  rewrite (fetchPullRequests_reads nt net token c s lm text data) by assumption.
  rewrite Hnodes. simpl.
  destruct (map_result_all (normalizePR nt) ns) as [prs Hprs].
  { intros n Hn. rewrite forallb_forall in Hall.
    exact (proj1 (normalizePR_outcome nt n) (Hall n Hn)). }
  rewrite Hprs. exists prs. split; [reflexivity|].
  pose proof (map_result_Forall2 (normalizePR nt) ns prs Hprs) as F.
  split; [symmetry; exact (Forall2_length F)|exact F].
Qed.

Lemma fetchPullRequests_success_witness :
  exists prs,
    fst (fetchPullRequests in_full (Extension.net cycle_ok) "t" new_client)
    = Ok (categorizePRs prs, prs)
    /\ List.length prs = 1%nat.
Proof.
  destruct (fetchPullRequests_success in_full (Extension.net cycle_ok) "t" new_client
              200 None "{}"%string one_approved
              [VObj [("number", VNum 7); ("isDraft", VBool false);
                     repository_of "octo" "demo";
                     ("reviewDecision", VStr "APPROVED")]])
    as (prs & H & Hlen & _); try reflexivity; try lia.
  exists prs. split; [exact H|exact Hlen].
Defined.

(** X5.  All or nothing: if one node of such an answer is outside that
    shape, the whole fetch throws a [TypeError] and no pull request is
    returned. *)
Theorem fetchPullRequests_one_bad_node nt net token c s lm text data ns :
  net (new_message GRAPHQL_URL token "POST"
                   (Some (VObj [("query", VStr PR_QUERY)])) c)
  = Response s lm text (Some data) ->
  200 <= s < 300 ->
  nullish data = false ->
  no_errors data = true ->
  pr_nodes data = VArr ns ->
  forallb normalizable ns = false ->
  exists e, fst (fetchPullRequests nt net token c) = Throw e /\ is_type_error e.
Proof.
  intros Hnet Hs Hdata Herr Hnodes Hbad.
  rewrite (fetchPullRequests_reads nt net token c s lm text data) by assumption.
  rewrite Hnodes. simpl.
  destruct (map_result_one_throws (normalizePR nt) is_type_error ns) as (e & -> & He).
  - intros n e Hn.
    destruct (normalizable n) eqn:E.
    + destruct (proj1 (normalizePR_outcome nt n) E) as [p Hp]. congruence.
    + destruct (proj2 (normalizePR_outcome nt n) E) as (e' & He' & Ht). congruence.
  - destruct (forallb normalizable ns) eqn:E; [discriminate|].
    assert (Hex : existsb (fun n => negb (normalizable n)) ns = true).
    { clear -E. induction ns as [|n ns IH]; simpl in *; [discriminate|].
      destruct (normalizable n); simpl in *; auto. }
    apply existsb_exists in Hex as (n & Hin & Hn).
    apply negb_true_iff in Hn.
    destruct (proj2 (normalizePR_outcome nt n) Hn) as (e & He & _).
    exists n. split; [exact Hin|now exists e].
  - now exists e.
Qed.

Lemma fetchPullRequests_one_bad_node_witness :
  exists e,
    fst (fetchPullRequests in_full
           (answering 200 None "{}"
              (Some (VObj [("data", VObj [("viewer", VObj [("pullRequests",
                 VObj [("nodes", VArr [bare_node; VNull])])])])])))
           "t" new_client) = Throw e
    /\ is_type_error e.
Proof.
  apply (fetchPullRequests_one_bad_node in_full _ "t" new_client 200 None "{}"%string
           (VObj [("data", VObj [("viewer", VObj [("pullRequests",
              VObj [("nodes", VArr [bare_node; VNull])])])])])
           [bare_node; VNull]); try reflexivity; lia.
Defined.

(** X6.  A 2xx answer without errors that lacks [data], [viewer],
    [pullRequests] or [nodes] (absent or [null]) is read as no pull request:
    four empty categories, no exception. *)
Theorem fetchPullRequests_missing_nodes nt net token c s lm text data :
  net (new_message GRAPHQL_URL token "POST"
                   (Some (VObj [("query", VStr PR_QUERY)])) c)
  = Response s lm text (Some data) ->
  200 <= s < 300 ->
  nullish data = false ->
  no_errors data = true ->
  nullish (get_own data "data") = true
  \/ nullish (opt_get (get_own data "data") "viewer") = true
  \/ nullish (opt_get (opt_get (get_own data "data") "viewer") "pullRequests")
     = true
  \/ nullish (opt_get (opt_get (opt_get (get_own data "data") "viewer")
                               "pullRequests") "nodes") = true ->
  fst (fetchPullRequests nt net token c) = Ok (mkCategories [] [] [] [], []).
Proof.
  intros Hnet Hs Hdata Herr Hmiss.
  rewrite (fetchPullRequests_reads nt net token c s lm text data) by assumption.
  assert (Hn : pr_nodes data = VArr []).
  { unfold pr_nodes, coalesce.
    destruct Hmiss as [H|[H|[H|H]]].
    - now rewrite !(opt_get_undefined_of_nullish _ _ H).
    - now rewrite !(opt_get_undefined_of_nullish _ _ H).
    - now rewrite (opt_get_undefined_of_nullish _ _ H).
    - now rewrite H. }
  rewrite Hn. reflexivity.
Qed.

Lemma fetchPullRequests_missing_nodes_witness :
  fst (fetchPullRequests in_full
         (answering 200 None "{}" (Some (VObj [("data", VObj [("viewer", VNull)])])))
         "t" new_client)
  = Ok (mkCategories [] [] [] [], []).
Proof.
  apply (fetchPullRequests_missing_nodes in_full _ "t" new_client 200 None "{}"%string
           (VObj [("data", VObj [("viewer", VNull)])]));
    try reflexivity; try lia.
  right. left. reflexivity.
Defined.

(** *** Answers to the notification request *)

Lemma take_length n : forall s,
  String.length (take n s) = Nat.min n (String.length s).
Proof.
  induction n as [|n IH]; intros [|ch s]; try reflexivity.
  change (take (S n) (String ch s)) with (String ch (take n s)).
  simpl. now rewrite IH.
Qed.

Lemma take_is_prefix n : forall s, exists rest, s = (take n s ++ rest)%string.
Proof.
  induction n as [|n IH]; intros [|ch s].
  - now exists ""%string.
  - now exists (String ch s).
  - now exists ""%string.
  - destruct (IH s) as [rest Hr]. exists rest.
    change (take (S n) (String ch s)) with (String ch (take n s)).
    simpl. now rewrite <- Hr.
Qed.

(** X7.  A status outside 200..299 other than 304 makes
    [fetchNotifications] throw a plain [Error] that quotes the status and the
    body; the quoted body is the first 200 characters of the answer, all of
    it when it is shorter.  One message went out and the stored
    [Last-Modified] is as before. *)
Theorem fetchNotifications_http_failure net token filterReasons c s lm text parsed :
  net (new_message NOTIFICATIONS_URL token "GET" None c)
  = Response s lm text parsed ->
  s <> 304 -> s < 200 \/ 300 <= s ->
  fetchNotifications net token filterReasons c
  = (Throw (mkExn ErrorC ("GitHub API " ++ string_of_Z s ++ ": "
                          ++ take 200 text)%string),
     mkClient (_lastNotificationPoll c)
              (wire c ++ [new_message NOTIFICATIONS_URL token "GET" None c]))
  /\ String.length (take 200 text) = Nat.min 200 (String.length text)
  /\ exists rest, text = (take 200 text ++ rest)%string.
Proof.
  intros Hnet H304 Hs.
  destruct (status_failed s H304 Hs) as [E1 E2].
  split; [|split; [apply take_length|apply take_is_prefix]].
  unfold fetchNotifications, bindM, _request, _sendAsync.
  rewrite Hnet, E1, E2. reflexivity.
Qed.

Lemma fetchNotifications_http_failure_witness :
  fst (fetchNotifications (answering 503 None "Service Unavailable" None)
                          "t" [] new_client)
  = Throw (mkExn ErrorC "GitHub API 503: Service Unavailable").
Proof.
  destruct (fetchNotifications_http_failure
              (answering 503 None "Service Unavailable" None) "t" [] new_client
              503 None "Service Unavailable"%string None eq_refl) as (H & _).
  - discriminate.
  - right. lia.
  - rewrite H. reflexivity.
Defined.

(** X8.  A 2xx answer whose body is the JSON [null] is taken for "not
    modified": [fetchNotifications] returns [UNCHANGED] whatever the filter,
    and a [Last-Modified] that came with the answer has been stored. *)
Theorem fetchNotifications_null_body net token filterReasons c s lm text :
  net (new_message NOTIFICATIONS_URL token "GET" None c)
  = Response s lm text (Some VNull) ->
  200 <= s < 300 ->
  fst (fetchNotifications net token filterReasons c) = Ok UNCHANGED
  /\ (truthy_str lm = true ->
      _lastNotificationPoll (snd (fetchNotifications net token filterReasons c))
      = lm)
  /\ (truthy_str lm = false ->
      _lastNotificationPoll (snd (fetchNotifications net token filterReasons c))
      = _lastNotificationPoll c).
Proof.
  intros Hnet Hs. destruct (status_2xx s Hs) as [E1 E2].
  unfold fetchNotifications, bindM, _request, _sendAsync.
  rewrite Hnet, E1, E2, notifications_is_notifications.
  destruct (truthy_str lm); simpl; repeat split; congruence.
Qed.

Lemma fetchNotifications_null_body_witness :
  fst (fetchNotifications (answering 200 (Some "Mon, 02 Nov 2026 10:00:00 GMT")
                                     "null" (Some VNull))
                          "t" ["mention"%string] new_client)
  = Ok UNCHANGED.
Proof.
  apply (fetchNotifications_null_body
           (answering 200 (Some "Mon, 02 Nov 2026 10:00:00 GMT") "null"
                      (Some VNull))
           "t" ["mention"%string] new_client 200
           (Some "Mon, 02 Nov 2026 10:00:00 GMT"%string) "null"%string eq_refl).
  lia.
Defined.

(** X9.  A 2xx answer whose body is not JSON makes either fetch throw the
    [SyntaxError] of [JSON.parse]; the notification fetch has by then stored
    the [Last-Modified] of that answer, so the next poll asks only for what
    changed after an answer that was never counted. *)
Theorem unparsable_body nt net token filterReasons c s lm text :
  200 <= s < 300 ->
  (net (new_message GRAPHQL_URL token "POST"
                    (Some (VObj [("query", VStr PR_QUERY)])) c)
   = Response s lm text None ->
   exists e, fst (fetchPullRequests nt net token c) = Throw e
             /\ exn_cls e = SyntaxErrorC)
  /\ (net (new_message NOTIFICATIONS_URL token "GET" None c)
      = Response s lm text None ->
      (exists e, fst (fetchNotifications net token filterReasons c) = Throw e
                 /\ exn_cls e = SyntaxErrorC)
      /\ (truthy_str lm = true ->
          _lastNotificationPoll
            (snd (fetchNotifications net token filterReasons c)) = lm)).
Proof.
  intro Hs. destruct (status_2xx s Hs) as [E1 E2]. split; intro Hnet.
  - unfold fetchPullRequests, bindM, _request, _sendAsync.
    rewrite Hnet, E1, E2, graphql_is_not_notifications.
    eexists. split; reflexivity.
  - unfold fetchNotifications, bindM, _request, _sendAsync.
    rewrite Hnet, E1, E2, notifications_is_notifications.
    destruct (truthy_str lm); simpl; split;
      try (eexists; split; reflexivity); congruence.
Qed.

Lemma unparsable_body_witness :
  _lastNotificationPoll
    (snd (fetchNotifications
            (answering 200 (Some "Mon, 02 Nov 2026 10:00:00 GMT") "<html>" None)
            "t" [] new_client))
  = Some "Mon, 02 Nov 2026 10:00:00 GMT"%string.
Proof.
  refine (proj2 (proj2 (unparsable_body in_full
            (answering 200 (Some "Mon, 02 Nov 2026 10:00:00 GMT") "<html>" None)
            "t" [] new_client 200 (Some "Mon, 02 Nov 2026 10:00:00 GMT"%string)
            "<html>"%string _) eq_refl) eq_refl).
  lia.
Defined.

(** *** How the count depends on the filter *)

(** The count on an array of objects. *)
Lemma fetchNotifications_array net token filterReasons c s lm text ns :
  net (new_message NOTIFICATIONS_URL token "GET" None c)
  = Response s lm text (Some (VArr ns)) ->
  200 <= s < 300 ->
  forallb is_obj ns = true ->
  fst (fetchNotifications net token filterReasons c)
  = Ok (VNum (Z.of_nat (List.length
          (match filterReasons with
           | [] => ns
           | _ :: _ => filter (reason_enabled filterReasons) ns
           end)))).
Proof.
  intros Hnet Hs Hobj. destruct (status_2xx s Hs) as [E1 E2].
  unfold fetchNotifications, bindM, _request, _sendAsync.
  rewrite Hnet, E1, E2, notifications_is_notifications.
  destruct (truthy_str lm); simpl;
    (destruct filterReasons as [|f fs]; [reflexivity|]);
    unfold lift, array_filter;
    rewrite (filter_result_reasons (f :: fs) ns Hobj); reflexivity.
Qed.

Lemma filter_length_le {A} (f g : A -> bool) l :
  (forall x, f x = true -> g x = true) ->
  (List.length (filter f l) <= List.length (filter g l))%nat.
Proof.
  intro H. induction l as [|x l IH]; simpl; [lia|].
  destruct (f x) eqn:E.
  - rewrite (H x E). simpl. lia.
  - destruct (g x); simpl; lia.
Qed.

Lemma reason_enabled_incl f1 f2 n :
  incl f1 f2 -> reason_enabled f1 n = true -> reason_enabled f2 n = true.
Proof.
  unfold reason_enabled. intros Hi.
  destruct (get_own n "reason"); try discriminate.
  intro H. apply existsb_exists in H as (x & Hin & Hx).
  apply existsb_exists. exists x. split; [now apply Hi|exact Hx].
Qed.

(** X10.  On a 2xx array of objects the count lies between 0 and the length
    of the array; among filters that enable at least one reason, enabling
    more never lowers it; and the filter that enables none gives the whole
    length, the largest count of all. *)
Theorem count_grows_with_filter net token c s lm text ns f1 f2 :
  net (new_message NOTIFICATIONS_URL token "GET" None c)
  = Response s lm text (Some (VArr ns)) ->
  200 <= s < 300 ->
  forallb is_obj ns = true ->
  f1 <> [] -> incl f1 f2 ->
  exists n1 n2,
    fst (fetchNotifications net token f1 c) = Ok (VNum n1)
    /\ fst (fetchNotifications net token f2 c) = Ok (VNum n2)
    /\ fst (fetchNotifications net token [] c)
       = Ok (VNum (Z.of_nat (List.length ns)))
    /\ 0 <= n1 <= n2 /\ n2 <= Z.of_nat (List.length ns).
Proof.
  intros Hnet Hs Hobj Hne Hincl.
  rewrite !(fetchNotifications_array net token _ c s lm text ns Hnet Hs Hobj).
  destruct f1 as [|a f1]; [contradiction|].
  destruct f2 as [|b f2]; [destruct (Hincl a (or_introl eq_refl))|].
  eexists. eexists. split; [reflexivity|]. split; [reflexivity|].
  split; [reflexivity|].
  pose proof (filter_length_le (reason_enabled (a :: f1))
                (reason_enabled (b :: f2)) ns
                (fun n => reason_enabled_incl _ _ n Hincl)) as H12.
  pose proof (filter_length (reason_enabled (b :: f2)) ns) as H2.
  lia.
Qed.

Lemma count_grows_with_filter_witness :
  exists n1 n2,
    fst (fetchNotifications
           (answering 200 None "[...]" (Some (VArr three_notifications)))
           "t" ["mention"%string] new_client) = Ok (VNum n1)
    /\ fst (fetchNotifications
              (answering 200 None "[...]" (Some (VArr three_notifications)))
              "t" ["mention"%string; "review_requested"%string] new_client)
       = Ok (VNum n2)
    /\ 0 <= n1 <= n2.
Proof.
  destruct (count_grows_with_filter
              (answering 200 None "[...]" (Some (VArr three_notifications)))
              "t" new_client 200 None "[...]"%string three_notifications
              ["mention"%string] ["mention"%string; "review_requested"%string]
              eq_refl) as (n1 & n2 & H1 & H2 & _ & Hle & _).
  - lia.
  - reflexivity.
  - discriminate.
  - intros x [<-|[]]. now left.
  - exists n1, n2. auto.
Defined.

End ClientCoverage.

(* ================================================================== *)
(** * More on the refresh cycle *)
(* ================================================================== *)

Module RefreshCoverage.
Import JS GitHub Extension Spec Shape Samples JSFacts.
Import NormalizerProofs ClientProofs ClientCoverage RefreshProofs.
Local Open Scope list_scope.

Section WithComparison.

Variable cmp : string -> Z -> option comparison.
Variable nt : Z -> string.

(** *** Comparing a number *)

Lemma ge_num n k : ge cmp nt (VNum n) k = Ok (k <=? n).
Proof.
  unfold ge, compare_num. destruct (Z.compare_spec n k); f_equal; symmetry.
  - apply Z.leb_le. lia.
  - apply Z.leb_gt. lia.
  - apply Z.leb_le. lia.
Qed.

Lemma gt_num n k : gt cmp nt (VNum n) k = Ok (k <? n).
Proof.
  unfold gt, compare_num. destruct (Z.compare_spec n k); f_equal; symmetry.
  - apply Z.ltb_ge. lia.
  - apply Z.ltb_ge. lia.
  - apply Z.ltb_lt. lia.
Qed.

(** *** The keyring fails *)

(** X11.  When the token lookup throws, the cycle writes one line to the
    console and shows [TOKEN_READ_FAILED], over cached categories too; it
    sends nothing and leaves the categories, the count and the badge, shown
    or hidden, as they were.  The line then stays: later cycles whose
    pull-request fetch throws keep the cached categories but do not put them
    back on screen. *)
Theorem refresh_lookup_failure env b msg envs :
  secret env = LookupFails msg ->
  Forall (pr_fetch_fails nt) envs ->
  let b' := _refresh cmp nt env b in
  menu b' = MessageMenu TOKEN_READ_FAILED
  /\ console b'
     = console b ++ [("[GitHub PR Status] Failed to read token: " ++ msg)%string]
  /\ _client b' = _client b
  /\ _lastCategories b' = _lastCategories b
  /\ _lastNotificationCount b' = _lastNotificationCount b
  /\ badge_text b' = badge_text b
  /\ badge_visible b' = badge_visible b
  /\ (_lastCategories b <> None ->
      menu (run cmp nt envs b') = MessageMenu TOKEN_READ_FAILED
      /\ _lastCategories (run cmp nt envs b') = _lastCategories b).
Proof.
  intros Hs Hall b'.
  assert (Hm : menu b' = MessageMenu TOKEN_READ_FAILED)
    by (unfold b', _refresh; rewrite Hs; reflexivity).
  assert (Hl : _lastCategories b' = _lastCategories b)
    by (unfold b', _refresh; rewrite Hs; reflexivity).
  split; [exact Hm|].
  split; [unfold b', _refresh; rewrite Hs; reflexivity|].
  split; [unfold b', _refresh; rewrite Hs; reflexivity|].
  split; [exact Hl|].
  split; [unfold b', _refresh; rewrite Hs; reflexivity|].
  split; [unfold b', _refresh; rewrite Hs; reflexivity|].
  split; [unfold b', _refresh; rewrite Hs; reflexivity|].
  intro Hne. destruct (_lastCategories b) as [cats|] eqn:E; [|contradiction].
  destruct (run_failures cmp nt envs b' cats Hall Hl) as [Hl' Hm'].
  rewrite Hm', Hl'. split; [exact Hm|reflexivity].
Qed.

(** *** The notification half *)

(** X12.  When the notification fetch throws, nothing of it shows: the menu
    and the categories are those the pull-request half left, the cached
    count and the badge are those of before the cycle, and one line is added
    to the console. *)
Theorem refresh_notification_failure env b t e :
  secret env = LookupReturns (Some t) -> t <> ""%string ->
  (forall c, fst (fetchNotifications (net env) t (filters env) c) = Throw e) ->
  let b' := _refresh cmp nt env b in
  menu b' = menu (refresh_prs nt env t b)
  /\ _lastCategories b' = _lastCategories (refresh_prs nt env t b)
  /\ _lastNotificationCount b' = _lastNotificationCount b
  /\ badge_text b' = badge_text b
  /\ badge_visible b' = badge_visible b
  /\ console b'
     = console (refresh_prs nt env t b)
       ++ [("[GitHub PR Status] Notification fetch failed: " ++ message e)%string].
Proof.
  intros Hs Ht Hf. simpl. rewrite (refresh_with_token cmp nt env b t Hs Ht).
  destruct (refresh_prs_frame nt env t b) as (_ & Hn & Hbt & Hbv).
  simpl in Hn, Hbt, Hbv.
  unfold refresh_notifications.
  specialize (Hf (_client (refresh_prs nt env t b))).
  destruct (fetchNotifications _ _ _ _) as [r c]. simpl in Hf. subst r.
  simpl. rewrite Hn, Hbt, Hbv. repeat split.
Qed.

(** X13.  When the notification endpoint answers 2xx with an array of
    objects, the cycle caches the count under the configured filter and sets
    the badge by it, whatever became of the pull-request fetch: shown iff the
    count is positive, reading the count, or [99+] above 99; at zero the
    badge is hidden and its text left as it was. *)
Theorem refresh_counts_notifications env b t s lm text ns :
  secret env = LookupReturns (Some t) -> t <> ""%string ->
  (forall req, req_url req = NOTIFICATIONS_URL ->
               net env req = Response s lm text (Some (VArr ns))) ->
  200 <= s < 300 ->
  forallb is_obj ns = true ->
  let n := Z.of_nat (List.length
             (match filters env with
              | [] => ns
              | _ :: _ => filter (reason_enabled (filters env)) ns
              end)) in
  let b' := _refresh cmp nt env b in
  _lastNotificationCount b' = VNum n
  /\ badge_visible b' = (0 <? n)
  /\ badge_text b'
     = (if 99 <? n then "99+"%string
        else if 0 <? n then string_of_Z n else badge_text b).
Proof.
  intros Hs Ht Hnet Hr Hobj n. simpl.
  rewrite (refresh_with_token cmp nt env b t Hs Ht).
  destruct (refresh_prs_frame nt env t b) as (_ & _ & Hbt & Hbv).
  simpl in Hbt, Hbv.
  unfold refresh_notifications.
  pose proof (fetchNotifications_array (net env) t (filters env)
                (_client (refresh_prs nt env t b)) s lm text ns
                (Hnet (new_message NOTIFICATIONS_URL t "GET" None
                                   (_client (refresh_prs nt env t b))) eq_refl)
                Hr Hobj) as Hf.
  fold n in Hf.
  destruct (fetchNotifications _ _ _ _) as [r c]. simpl in Hf. subst r.
  rewrite ge_num.
  assert (Hn0 : (0 <=? n) = true) by (apply Z.leb_le; subst n; lia).
  rewrite Hn0. unfold _updateBadge. rewrite !gt_num.
  destruct (0 <? n) eqn:Hpos.
  - destruct (99 <? n) eqn:Hbig; simpl; [auto|].
    unfold string_of_number.
    assert (Hsafe : (Z.abs n <=? MAX_SAFE_INTEGER) = true).
    { apply Z.leb_le. apply Z.ltb_ge in Hbig. apply Z.ltb_lt in Hpos.
      unfold MAX_SAFE_INTEGER. lia. }
    rewrite Hsafe. simpl. auto.
  - assert (H99 : (99 <? n) = false).
    { apply Z.ltb_ge. apply Z.ltb_ge in Hpos. lia. }
    rewrite H99. simpl. rewrite Hbt. auto.
Qed.

(** *** The categories over many cycles *)

Lemma refresh_categories_cases env b :
  _lastCategories (_refresh cmp nt env b) = _lastCategories b
  \/ exists t cats prs,
       secret env = LookupReturns (Some t)
       /\ fst (fetchPullRequests nt (net env) t (_client b)) = Ok (cats, prs)
       /\ _lastCategories (_refresh cmp nt env b) = Some cats.
Proof.
  destruct (secret env) as [msg|token] eqn:Hs.
  - left. unfold _refresh. rewrite Hs. reflexivity.
  - destruct (truthy_str token) eqn:Ht.
    + destruct token as [t|]; [|discriminate].
      assert (Hne : t <> ""%string) by (intros ->; discriminate).
      rewrite (refresh_with_token cmp nt env b t Hs Hne).
      destruct (refresh_notifications_frame cmp nt env t (refresh_prs nt env t b))
        as (_ & Hl & _).
      simpl in Hl. rewrite Hl. unfold refresh_prs.
      destruct (fetchPullRequests nt (net env) t (_client b))
        as [[[cats prs]|e] c] eqn:E.
      * right. exists t, cats, prs. split; [reflexivity|].
        split; [now rewrite E|].
        unfold _buildMenu. destruct (menu_isOpen env); [reflexivity|].
        simpl. destruct (snd (Menu._buildMenu nt cats)); reflexivity.
      * left. simpl. destruct (_lastCategories b) eqn:El; simpl; now rewrite ?El.
    + left. unfold _refresh. rewrite Hs, Ht.
      unfold _updateBadge, gt, compare_num. reflexivity.
Qed.

(** X14.  A cycle leaves the cached categories alone or replaces them by
    those of a pull-request fetch that returned; hence, once there are
    categories, no sequence of cycles, whatever the keyring and the server
    do, brings the cache back to empty. *)
Theorem categories_never_lost :
  (forall env b,
      _lastCategories (_refresh cmp nt env b) = _lastCategories b
      \/ exists t cats prs,
           secret env = LookupReturns (Some t)
           /\ fst (fetchPullRequests nt (net env) t (_client b)) = Ok (cats, prs)
           /\ _lastCategories (_refresh cmp nt env b) = Some cats)
  /\ (forall envs b,
        _lastCategories b <> None ->
        _lastCategories (run cmp nt envs b) <> None).
Proof.
  split; [exact refresh_categories_cases|].
  induction envs as [|env envs IH]; intros b Hb; simpl; [exact Hb|].
  apply IH.
  destruct (refresh_categories_cases env b) as [H|(t & cats & prs & _ & _ & H)];
    rewrite H; [exact Hb|discriminate].
Qed.

(** *** The requests of a cycle *)

(** X15.  With a token a cycle sends exactly two messages, the POST of the
    query and then the GET of the notifications, whatever the answer to
    either: the notifications are asked for even when the pull-request fetch
    failed.  Without a token, or when the keyring fails, it sends none. *)
Theorem requests_per_cycle env b :
  wire (_client (_refresh cmp nt env b))
  = wire (_client b)
    ++ match secret env with
       | LookupReturns (Some t) =>
           if (t =? "")%string then []
           else [new_message GRAPHQL_URL t "POST"
                             (Some (VObj [("query", VStr PR_QUERY)])) (_client b);
                 new_message NOTIFICATIONS_URL t "GET" None (_client b)]
       | _ => []
       end.
Proof.
  destruct (secret env) as [msg|[t|]] eqn:Hs.
  - unfold _refresh. rewrite Hs. simpl. now rewrite app_nil_r.
  - destruct (String.eqb_spec t "") as [->|Hne].
    + unfold _refresh. rewrite Hs. simpl. now rewrite app_nil_r.
    + rewrite (refresh_client cmp nt env b t Hs Hne).
      rewrite fetchNotifications_client, request_wire.
      rewrite fetchPullRequests_client, request_wire.
      rewrite <- app_assoc. simpl. do 2 f_equal.
      unfold new_message.
      rewrite <- (fetchPullRequests_client nt), fetchPullRequests_poll.
      reflexivity.
  - unfold _refresh. rewrite Hs. simpl. now rewrite app_nil_r.
Qed.

End WithComparison.

Lemma refresh_lookup_failure_witness :
  menu (run never_a_number in_full [cycle_down; cycle_down]
            (_refresh never_a_number in_full cycle_locked
                      (_refresh never_a_number in_full cycle_ok init)))
  = MessageMenu TOKEN_READ_FAILED
  /\ _lastCategories
       (run never_a_number in_full [cycle_down; cycle_down]
            (_refresh never_a_number in_full cycle_locked
                      (_refresh never_a_number in_full cycle_ok init)))
     = _lastCategories (_refresh never_a_number in_full cycle_ok init).
Proof.
  refine (proj2 (proj2 (proj2 (proj2 (proj2 (proj2 (proj2
            (refresh_lookup_failure never_a_number in_full cycle_locked
               (_refresh never_a_number in_full cycle_ok init)
               "keyring is locked"%string [cycle_down; cycle_down]
               eq_refl _))))))) _).
  - repeat constructor;
      (exists "t"%string; eexists; split; [reflexivity|];
       split; [discriminate|]; intro c; reflexivity).
  - discriminate.
Defined.

Lemma refresh_notification_failure_witness :
  badge_visible (_refresh never_a_number in_full cycle_down init) = badge_visible init
  /\ console (_refresh never_a_number in_full cycle_down init)
     = ["[GitHub PR Status] PR fetch failed: GitHub API 503: Service Unavailable";
        "[GitHub PR Status] Notification fetch failed: GitHub API 503: Service Unavailable"]%string.
Proof.
  destruct (refresh_notification_failure never_a_number in_full cycle_down init
              "t"%string
              (mkExn ErrorC "GitHub API 503: Service Unavailable") eq_refl)
    as (_ & _ & _ & _ & Hv & Hc).
  - discriminate.
  - intro c. reflexivity.
  - split; [exact Hv|exact Hc].
Defined.

Lemma refresh_counts_notifications_witness :
  _lastNotificationCount (_refresh never_a_number in_full cycle_counting init) = VNum 2
  /\ badge_visible (_refresh never_a_number in_full cycle_counting init) = true
  /\ badge_text (_refresh never_a_number in_full cycle_counting init) = "2"%string.
Proof.
  exact (refresh_counts_notifications never_a_number in_full cycle_counting init
           "t"%string 200 None "[...]"%string three_notifications eq_refl
           ltac:(discriminate) ltac:(intros req _; reflexivity) ltac:(lia)
           eq_refl).
Defined.

Lemma categories_never_lost_witness :
  _lastCategories
    (run never_a_number in_full [cycle_locked; cycle_no_token; cycle_down]
         (_refresh never_a_number in_full cycle_ok init))
  <> None.
Proof.
  apply (proj2 (categories_never_lost never_a_number in_full)).
  discriminate.
Defined.

End RefreshCoverage.

(* ================================================================== *)
(** * What the menu shows *)
(* ================================================================== *)

Module MenuCoverage.
Import JS GitHub Extension Spec Samples JSFacts ClassifierProofs Menu MenuItems.
Local Open Scope list_scope.

(** The categories of a list, side by side, are a rearrangement of it. *)
Lemma categorize_permutation prs :
  Permutation prs
    (approved (categorizePRs prs) ++ changesRequested (categorizePRs prs)
     ++ reviewRequired (categorizePRs prs) ++ draft (categorizePRs prs)).
Proof.
  pose proof (fun b => categorize_fold_content prs (mkCategories [] [] [] []) b)
    as H.
  change (approved (categorizePRs prs)) with (content Approved (categorizePRs prs)).
  change (changesRequested (categorizePRs prs))
    with (content ChangesRequested (categorizePRs prs)).
  change (reviewRequired (categorizePRs prs))
    with (content ReviewRequired (categorizePRs prs)).
  change (draft (categorizePRs prs)) with (content Draft (categorizePRs prs)).
  unfold categorizePRs. rewrite !H. simpl. apply four_way_permutation.
Qed.

(** *** Mapping a function that can throw *)

Lemma map_result_app {A B} (f : A -> result B) xs ys bs cs :
  map_result f xs = Ok bs -> map_result f ys = Ok cs ->
  map_result f (xs ++ ys) = Ok (bs ++ cs).
Proof.
  revert bs. induction xs as [|x xs IH]; simpl; intros bs Hx Hy.
  - injection Hx as <-. exact Hy.
  - destruct (f x) as [b|e]; [|discriminate].
    destruct (map_result f xs) as [bs'|e]; [|discriminate].
    injection Hx as <-. now rewrite (IH bs' eq_refl Hy).
Qed.

Lemma map_result_length {A B} (f : A -> result B) xs : forall bs,
  map_result f xs = Ok bs -> List.length bs = List.length xs.
Proof.
  induction xs as [|x xs IH]; simpl; intros bs H.
  - now injection H as <-.
  - destruct (f x) as [b|e]; [|discriminate].
    destruct (map_result f xs) as [bs'|e]; [|discriminate].
    injection H as <-. simpl. now rewrite (IH bs' eq_refl).
Qed.

Lemma map_result_Permutation {A B} (f : A -> result B) xs ys :
  Permutation xs ys ->
  forall bs, map_result f xs = Ok bs ->
  exists cs, map_result f ys = Ok cs /\ Permutation bs cs.
Proof.
  induction 1 as [|x xs ys _ IH|x y xs|xs ys zs _ IH1 _ IH2]; intros bs H.
  - exists bs. split; [exact H|apply Permutation_refl].
  - simpl in *. destruct (f x) as [b|e]; [|discriminate].
    destruct (map_result f xs) as [bs'|e]; [|discriminate].
    injection H as <-. destruct (IH bs' eq_refl) as (cs & -> & Hp).
    exists (b :: cs). split; [reflexivity|now constructor].
  - simpl in *. destruct (f y) as [b|e]; [|discriminate].
    destruct (f x) as [b'|e]; [|discriminate].
    destruct (map_result f xs) as [bs'|e]; [|discriminate].
    injection H as <-. exists (b' :: b :: bs').
    split; [reflexivity|apply perm_swap].
  - destruct (IH1 bs H) as (cs & Hc & Hp).
    destruct (IH2 cs Hc) as (ds & Hd & Hq).
    exists ds. split; [exact Hd|eapply Permutation_trans; eassumption].
Qed.

Lemma forallb_Permutation {A} (f : A -> bool) xs ys :
  Permutation xs ys -> forallb f xs = forallb f ys.
Proof.
  induction 1 as [| |x y xs|]; simpl; try congruence.
  destruct (f x), (f y); reflexivity.
Qed.

Section WithEngine.

Variable nt : Z -> string.

(** *** The lines *)

Lemma pr_item_prints p :
  line_prints p = true -> exists e, pr_item nt p = Ok e.
Proof.
  unfold line_prints, pr_item. intro H. apply andb_true_iff in H as [Hr Ht].
  destruct (to_string_printable nt _ Hr) as [rs ->].
  destruct (to_string_printable nt _ Ht) as [ts ->].
  simpl. eexists. reflexivity.
Qed.

Lemma pr_item_fails p :
  line_prints p = false ->
  exists x, pr_item nt p = Throw x /\ exn_cls x = TypeErrorC.
Proof.
  unfold line_prints, pr_item. intro H.
  destruct (to_string_outcome nt (repoName p)) as [Rok Rno].
  destruct (printable (repoName p)).
  - destruct (Rok eq_refl) as [rs ->]. simpl in *.
    destruct (proj2 (to_string_outcome nt (title p)) H) as (x & -> & Hx).
    now exists x.
  - destruct (Rno eq_refl) as (x & -> & Hx). now exists x.
Qed.

Lemma lines_print prs :
  forallb line_prints prs = true ->
  exists es, map_result (pr_item nt) prs = Ok es.
Proof.
  induction prs as [|p prs IH]; simpl; intro H; [now exists []|].
  apply andb_true_iff in H as [Hp Hrest].
  destruct (pr_item_prints p Hp) as [e ->].
  destruct (IH Hrest) as [es ->]. now eexists.
Qed.

Lemma add_lines_ok prs : forall es,
  map_result (pr_item nt) prs = Ok es -> add_lines nt prs = (es, None).
Proof.
  induction prs as [|p prs IH]; simpl; intros es H.
  - now injection H as <-.
  - destruct (pr_item nt p) as [e|x]; [|discriminate].
    destruct (map_result (pr_item nt) prs) as [es'|x]; [|discriminate].
    injection H as <-. now rewrite (IH es' eq_refl).
Qed.

Lemma add_lines_throw prs :
  forallb line_prints prs = false ->
  exists es x, add_lines nt prs = (es, Some x)
               /\ exn_cls x = TypeErrorC
               /\ (List.length es < List.length prs)%nat.
Proof.
  induction prs as [|p prs IH]; simpl; intro H; [discriminate|].
  destruct (line_prints p) eqn:Hp; simpl in H.
  - destruct (pr_item_prints p Hp) as [e ->].
    destruct (IH H) as (es & x & -> & Hx & Hlen).
    exists (e :: es), x. simpl. repeat split; auto. lia.
  - destruct (pr_item_fails p Hp) as (x & -> & Hx).
    exists [], x. simpl. repeat split; auto. lia.
Qed.

(** *** The loop over the categories *)

Lemma add_categories_ok c metas : forall acc,
  forallb (fun m => forallb line_prints (key m c)) metas = true ->
  exists subs,
    add_categories nt c metas acc
    = ((fst acc ++ subs,
        (snd acc + List.length (flat_map (fun m => key m c) metas))%nat), None)
    /\ Forall2 (submenu_of nt c) (filter (holds c) metas) subs.
Proof.
  induction metas as [|m metas IH]; intros acc H;
    cbn [add_categories forallb flat_map filter] in *.
  - exists []. cbn [List.length]. rewrite app_nil_r, Nat.add_0_r.
    split; [now destruct acc|constructor].
  - apply andb_true_iff in H as [Hm Hrest]. unfold holds at 1.
    destruct (key m c) as [|p prs] eqn:E.
    + destruct (IH acc Hrest) as (subs & -> & F). now exists subs.
    + destruct (lines_print _ Hm) as [lines Hlines].
      rewrite (add_lines_ok _ _ Hlines).
      destruct (IH (fst acc ++ [SubMenu (header m (p :: prs)) lines],
                    (snd acc + List.length (p :: prs))%nat) Hrest)
        as (subs & -> & F).
      exists (SubMenu (header m (p :: prs)) lines :: subs). split.
      * cbn [fst snd]. rewrite <- app_assoc, length_app, Nat.add_assoc.
        reflexivity.
      * constructor; [|exact F]. exists lines. now rewrite E.
Qed.

Lemma add_categories_throw c metas : forall acc,
  forallb (fun m => forallb line_prints (key m c)) metas = false ->
  exists front m lines n x,
    add_categories nt c metas acc
    = ((fst acc ++ front ++ [SubMenu (header m (key m c)) lines], n), Some x)
    /\ exn_cls x = TypeErrorC
    /\ In m metas
    /\ (List.length lines < List.length (key m c))%nat
    /\ forallb is_submenu front = true.
Proof.
  induction metas as [|m metas IH]; intros acc H;
    cbn [add_categories forallb] in *; [discriminate|].
  destruct (forallb line_prints (key m c)) eqn:Hm; cbn [andb] in H.
  - destruct (key m c) as [|p prs] eqn:E.
    + destruct (IH acc H) as (front & m' & lines & n & x & -> & Hx & Hin & Hl & Hf).
      exists front, m', lines, n, x. repeat split; auto. now right.
    + destruct (lines_print _ Hm) as [lines Hlines].
      rewrite (add_lines_ok _ _ Hlines).
      destruct (IH (fst acc ++ [SubMenu (header m (p :: prs)) lines],
                    (snd acc + List.length (p :: prs))%nat) H)
        as (front & m' & lines' & n & x & -> & Hx & Hin & Hl & Hf).
      exists (SubMenu (header m (p :: prs)) lines :: front), m', lines', n, x.
      cbn [fst]. rewrite <- app_assoc. simpl. repeat split; auto.
  - destruct (add_lines_throw _ Hm) as (es & x & Hes & Hx & Hlen).
    destruct (key m c) as [|p prs] eqn:E; [discriminate|].
    rewrite Hes.
    exists [], m, es, (snd acc + List.length (p :: prs))%nat, x.
    rewrite E. simpl. repeat split; auto.
Qed.

Lemma nothing_held c metas :
  (List.length (flat_map (fun m => key m c) metas) =? 0)%nat
  = match filter (holds c) metas with [] => true | _ :: _ => false end.
Proof.
  induction metas as [|m metas IH]; simpl; [reflexivity|].
  unfold holds at 1. destruct (key m c) as [|p prs]; simpl; auto.
Qed.

(** The closed form of a menu all of whose lines can be made. *)
Lemma buildMenu_ok c :
  all_print c = true ->
  exists subs,
    Menu._buildMenu nt c
    = (subs
       ++ match shown c with [] => [Inert "No open PRs"] | _ :: _ => [] end
       ++ _addFooter, None)
    /\ Forall2 (submenu_of nt c) (shown c) subs.
Proof.
  intro H. unfold Menu._buildMenu.
  destruct (add_categories_ok c CATEGORY_META ([], O) H) as (subs & -> & F).
  exists subs. split; [|exact F].
  cbn [fst snd Nat.add]. rewrite nothing_held. fold (shown c).
  destruct (shown c); reflexivity.
Qed.

Lemma buildMenu_throw c :
  all_print c = false ->
  exists front m lines x,
    Menu._buildMenu nt c
    = (front ++ [SubMenu (header m (key m c)) lines], Some x)
    /\ exn_cls x = TypeErrorC
    /\ In m CATEGORY_META
    /\ (List.length lines < List.length (key m c))%nat
    /\ forallb is_submenu front = true.
Proof.
  intro H. unfold Menu._buildMenu.
  destruct (add_categories_throw c CATEGORY_META ([], O) H)
    as (front & m & lines & n & x & -> & Hx & Hin & Hl & Hf).
  exists front, m, lines, x. auto.
Qed.

Lemma submenus_hold_the_lines c metas : forall subs,
  Forall2 (submenu_of nt c) (filter (holds c) metas) subs ->
  map_result (pr_item nt) (flat_map (fun m => key m c) metas)
  = Ok (listed subs).
Proof.
  induction metas as [|m metas IH]; simpl; intros subs F.
  - inversion F. reflexivity.
  - unfold holds at 1 in F. destruct (key m c) as [|p prs] eqn:E.
    + now apply IH.
    + inversion F as [|m' it ms its (lines & Hlines & ->) Hrest]; subst.
      rewrite E in Hlines. unfold listed. cbn [flat_map]. fold (listed its).
      apply map_result_app; [exact Hlines|now apply IH].
Qed.

Lemma submenus_are_submenus c metas subs :
  Forall2 (submenu_of nt c) metas subs -> forallb is_submenu subs = true.
Proof.
  induction 1 as [|m it ms its Hit _ IH]; simpl; auto.
  destruct Hit as (lines & _ & ->). exact IH.
Qed.

Lemma no_notice_among_submenus its :
  forallb is_submenu its = true -> ~ In (Inert "No open PRs") its.
Proof.
  induction its as [|it its IH]; simpl; intro H; [tauto|].
  intros [E|Hin].
  - subst it. discriminate.
  - apply andb_true_iff in H as [_ H]. now apply IH.
Qed.

Lemma shown_nothing c :
  shown c = []
  <-> approved c = [] /\ changesRequested c = []
      /\ reviewRequired c = [] /\ draft c = [].
Proof.
  unfold shown, CATEGORY_META, holds. simpl.
  destruct (approved c), (changesRequested c), (reviewRequired c), (draft c);
    simpl; split; try discriminate; try (intros (? & ? & ? & ?); discriminate);
    auto.
Qed.

Lemma all_print_categorized prs :
  forallb line_prints prs = true -> all_print (categorizePRs prs) = true.
Proof.
  intro H. rewrite (forallb_Permutation _ _ _ (categorize_permutation prs)) in H.
  rewrite !forallb_app in H.
  apply andb_true_iff in H as [Ha H]. apply andb_true_iff in H as [Hc H].
  apply andb_true_iff in H as [Hr Hd].
  unfold all_print, CATEGORY_META. simpl. now rewrite Ha, Hc, Hr, Hd.
Qed.

(** X16.  When the line of every pull request handed to [categorizePRs] can
    be made (its repository name and its title convert to a string),
    [_buildMenu] returns on the categories, and every pull request is listed
    exactly once in its menu: the lines of the submenus, read top to bottom,
    are the lines of the pull requests grouped approved, changes requested,
    review required, draft, and so a rearrangement of the lines of the pull
    requests. *)
Theorem every_pr_listed_once (prs : list pr) :
  forallb line_prints prs = true ->
  let c := categorizePRs prs in
  exists lines,
    map_result (pr_item nt) prs = Ok lines
    /\ snd (Menu._buildMenu nt c) = None
    /\ map_result (pr_item nt)
         (approved c ++ changesRequested c ++ reviewRequired c ++ draft c)
       = Ok (listed (items_of nt (CategoryMenu c)))
    /\ Permutation lines (listed (items_of nt (CategoryMenu c))).
Proof.
  intros H c.
  destruct (lines_print prs H) as [lines Hlines].
  destruct (buildMenu_ok c (all_print_categorized prs H)) as (subs & Hb & F).
  assert (Hl : listed (items_of nt (CategoryMenu c)) = listed subs).
  { simpl. rewrite Hb. cbn [fst]. unfold listed. rewrite !flat_map_app.
    destruct (shown c); simpl; now rewrite app_nil_r. }
  assert (Hall : map_result (pr_item nt)
                   (approved c ++ changesRequested c ++ reviewRequired c
                    ++ draft c) = Ok (listed subs)).
  { pose proof (submenus_hold_the_lines c CATEGORY_META subs F) as Hs.
    simpl in Hs. now rewrite app_nil_r in Hs. }
  exists lines. split; [exact Hlines|]. split; [now rewrite Hb|].
  rewrite Hl. split; [exact Hall|].
  destruct (map_result_Permutation (pr_item nt) _ _
              (categorize_permutation prs) lines Hlines) as (cs & Hcs & Hp).
  fold c in Hcs. rewrite Hall in Hcs. injection Hcs as <-. exact Hp.
Qed.

(** X17.  When every line can be made, the menu [_buildMenu] makes is, top
    to bottom: for each category that is not empty, in the order of
    [CATEGORY_META], one submenu headed by the icon, the label and the size
    of that very category and holding the lines of its pull requests in
    order; then the line [No open PRs] if no category holds any; then the
    separator, [Refresh Now] and [Preferences].  When some line cannot be
    made, [_buildMenu] throws a [TypeError] and leaves submenus only, the
    last of them headed by the size of its category but holding fewer lines,
    with no footer.  Either way [No open PRs] is in the menu exactly when
    all four categories are empty.  The menu of [_buildMenuError] is its
    line and the same footer. *)
Theorem menu_structure (c : categories) :
  (all_print c = true ->
   exists subs,
     Menu._buildMenu nt c
     = (subs
        ++ match shown c with [] => [Inert "No open PRs"] | _ :: _ => [] end
        ++ _addFooter, None)
     /\ Forall2 (submenu_of nt c) (shown c) subs
     /\ List.length subs = List.length (shown c))
  /\ (all_print c = false ->
      exists front m lines x,
        Menu._buildMenu nt c
        = (front ++ [SubMenu (header m (key m c)) lines], Some x)
        /\ exn_cls x = TypeErrorC
        /\ In m CATEGORY_META
        /\ (List.length lines < List.length (key m c))%nat
        /\ forallb is_submenu front = true)
  /\ (In (Inert "No open PRs") (fst (Menu._buildMenu nt c)) <->
      approved c = [] /\ changesRequested c = []
      /\ reviewRequired c = [] /\ draft c = [])
  /\ (forall msg, Menu._buildMenuError msg = [Inert msg] ++ _addFooter).
Proof.
  split; [|split; [|split]].
  - intro H. destruct (buildMenu_ok c H) as (subs & Hb & F).
    exists subs. split; [exact Hb|]. split; [exact F|].
    symmetry. exact (Forall2_length F).
  - exact (buildMenu_throw c).
  - rewrite <- shown_nothing. destruct (all_print c) eqn:H.
    + destruct (buildMenu_ok c H) as (subs & -> & F). cbn [fst].
      pose proof (no_notice_among_submenus subs
                    (submenus_are_submenus c _ subs F)) as Hno.
      rewrite in_app_iff. destruct (shown c) as [|m ms]; simpl; split.
      * reflexivity.
      * intros _. right. now left.
      * intros [Hin|Hin]; [contradiction|].
        repeat (destruct Hin as [Hin|Hin]; try discriminate). contradiction.
      * discriminate.
    + destruct (buildMenu_throw c H) as (front & m & lines & x & -> & _ & _ & _ & Hf).
      cbn [fst]. split.
      * intro Hin. exfalso.
        apply (no_notice_among_submenus
                 (front ++ [SubMenu (header m (key m c)) lines])); [|exact Hin].
        rewrite forallb_app, Hf. reflexivity.
      * intro Hs. exfalso. apply shown_nothing in Hs as (Ha & Hc & Hr & Hd).
        unfold all_print, CATEGORY_META in H. simpl in H.
        rewrite Ha, Hc, Hr, Hd in H. discriminate.
  - reflexivity.
Qed.

End WithEngine.

Lemma every_pr_listed_once_witness :
  exists lines,
    map_result (pr_item in_full) [pr_wip; pr_fix] = Ok lines
    /\ snd (Menu._buildMenu in_full (categorizePRs [pr_wip; pr_fix])) = None
    /\ map_result (pr_item in_full)
         (approved (categorizePRs [pr_wip; pr_fix])
          ++ changesRequested (categorizePRs [pr_wip; pr_fix])
          ++ reviewRequired (categorizePRs [pr_wip; pr_fix])
          ++ draft (categorizePRs [pr_wip; pr_fix]))
       = Ok (listed (items_of in_full
                       (CategoryMenu (categorizePRs [pr_wip; pr_fix]))))
    /\ Permutation lines
         (listed (items_of in_full
                    (CategoryMenu (categorizePRs [pr_wip; pr_fix])))).
Proof.
  exact (every_pr_listed_once in_full [pr_wip; pr_fix] eq_refl).
Defined.

(** A menu that is made, and one that [_buildMenu] leaves half made: the
    submenu says two pull requests and holds the line of the first only. *)
Lemma menu_structure_witness :
  (exists subs,
     Menu._buildMenu in_full (categorizePRs [pr_wip; pr_fix])
     = (subs
        ++ match shown (categorizePRs [pr_wip; pr_fix]) with
           | [] => [Inert "No open PRs"]
           | _ :: _ => []
           end
        ++ _addFooter, None)
     /\ Forall2 (submenu_of in_full (categorizePRs [pr_wip; pr_fix]))
                (shown (categorizePRs [pr_wip; pr_fix])) subs
     /\ List.length subs = List.length (shown (categorizePRs [pr_wip; pr_fix])))
  /\ exists front m lines x,
       Menu._buildMenu in_full (categorizePRs [pr_fix; pr_untitled; pr_wip])
       = (front
          ++ [SubMenu (header m (key m (categorizePRs
                                          [pr_fix; pr_untitled; pr_wip])))
                      lines], Some x)
       /\ exn_cls x = TypeErrorC
       /\ In m CATEGORY_META
       /\ (List.length lines
           < List.length (key m (categorizePRs [pr_fix; pr_untitled; pr_wip])))%nat
       /\ forallb is_submenu front = true.
Proof.
  split.
  - exact (proj1 (menu_structure in_full (categorizePRs [pr_wip; pr_fix]))
                 eq_refl).
  - exact (proj1 (proj2 (menu_structure in_full
                           (categorizePRs [pr_fix; pr_untitled; pr_wip])))
                 eq_refl).
Defined.

End MenuCoverage.

(* ================================================================== *)
(** * The timer over interval changes *)
(* ================================================================== *)

Module TimerCoverage.
Import Timer.
Local Open Scope list_scope.

Lemma remove_fresh id (l : list (nat * Z)) extra :
  Forall (fun s => (fst s < id)%nat) l ->
  filter (fun s => negb (Nat.eqb (fst s) id)) (l ++ [(id, extra)]) = l.
Proof.
  intro H. rewrite filter_app. simpl. rewrite Nat.eqb_refl. simpl.
  rewrite app_nil_r.
  induction H as [|s l Hs Hl IH]; simpl; [reflexivity|].
  destruct (Nat.eqb_spec (fst s) id) as [E|E]; [lia|]. simpl. now rewrite IH.
Qed.

Lemma one_timer_init seconds l0 :
  consistent l0 -> one_timer l0 (init seconds l0).
Proof.
  intro Hc. exists (S (last_id l0)).
  split; [discriminate|]. split; [reflexivity|]. split; [|split; reflexivity].
  eapply Forall_impl; [|exact Hc]. simpl. intros s Hs. lia.
Qed.

Lemma one_timer_changed l0 t seconds :
  one_timer l0 t -> one_timer l0 (interval_changed t seconds).
Proof.
  intros (id & Hpos & Ha & Hf & Hl & Hs).
  unfold interval_changed, _restartTimer, cancel, armed. simpl. rewrite Ha.
  apply Nat.eqb_neq in Hpos. rewrite Hpos.
  unfold _startTimer, timeout_add_seconds, source_remove. simpl.
  rewrite Hs, (remove_fresh id (sources l0) _ Hf), Hl.
  exists (S id).
  split; [discriminate|]. split; [reflexivity|]. split; [|split; reflexivity].
  eapply Forall_impl; [|exact Hf]. simpl. intros s Hlt. lia.
Qed.

Lemma one_timer_changes l0 seconds : forall t,
  one_timer l0 t -> one_timer l0 (fold_left interval_changed seconds t).
Proof.
  induction seconds as [|z zs IH]; intros t H; simpl; [exact H|].
  apply IH, one_timer_changed, H.
Qed.

Lemma interval_after_changes seconds : forall t,
  refresh_interval (fold_left interval_changed seconds t)
  = last seconds (refresh_interval t).
Proof.
  induction seconds as [|z zs IH]; intro t; [reflexivity|].
  change (fold_left interval_changed (z :: zs) t)
    with (fold_left interval_changed zs (interval_changed t z)).
  rewrite IH.
  assert (Hz : refresh_interval (interval_changed t z) = z).
  { unfold interval_changed, _restartTimer, cancel, armed, _startTimer. simpl.
    destruct (_timerId t) as [id|]; [destruct (Nat.eqb id 0)|]; reflexivity. }
  rewrite Hz. destruct zs as [|z0 zs]; [reflexivity|].
  clear. revert z0. induction zs as [|z1 zs IHz]; intro z0; [reflexivity|].
  change (last (z0 :: z1 :: zs) z) with (last (z1 :: zs) z).
  change (last (z :: z0 :: z1 :: zs) (refresh_interval t))
    with (last (z1 :: zs) (refresh_interval t)).
  specialize (IHz z1). simpl in IHz |- *. exact IHz.
Qed.

(** X18.  However often the interval is changed after [_init], the loop
    holds, beside the sources it had before, exactly one source of the
    button, armed with the interval set last ([_init]'s when none was); the
    button's [_timerId] is the id of that source. *)
Theorem one_timer_at_the_latest_interval l0 first changes :
  consistent l0 ->
  let t := fold_left interval_changed changes (init first l0) in
  exists id,
    _timerId t = Some id /\ id <> O
    /\ sources (loop t) = sources l0 ++ [(id, last changes first)].
Proof.
  intros Hc t.
  destruct (one_timer_changes l0 changes (init first l0)
              (one_timer_init first l0 Hc)) as (id & Hpos & Ha & _ & _ & Hs).
  exists id. split; [exact Ha|]. split; [exact Hpos|].
  fold t in Hs. rewrite Hs. subst t.
  now rewrite interval_after_changes.
Qed.

Lemma one_timer_at_the_latest_interval_witness :
  exists id,
    _timerId (fold_left interval_changed [60; 600] (init 300 (mkLoop [(4%nat, 5)] 7)))
    = Some id
    /\ sources (loop (fold_left interval_changed [60; 600]
                                (init 300 (mkLoop [(4%nat, 5)] 7))))
       = [(4%nat, 5); (id, 600)].
Proof.
  destruct (one_timer_at_the_latest_interval (mkLoop [(4%nat, 5)] 7) 300 [60; 600])
    as (id & Ha & _ & Hs).
  - repeat constructor.
  - exists id. split; [exact Ha|exact Hs].
Defined.

(** X19.  [destroy] after any such history detaches the button's source and
    leaves the loop with the sources it had before the button came, and
    [_timerId] at [null]; a second [destroy] does nothing. *)
Theorem destroy_detaches_the_timer l0 first changes :
  consistent l0 ->
  let t := destroy (fold_left interval_changed changes (init first l0)) in
  _timerId t = None
  /\ sources (loop t) = sources l0
  /\ destroy t = t.
Proof.
  intros Hc.
  destruct (one_timer_changes l0 changes (init first l0)
              (one_timer_init first l0 Hc)) as (id & Hpos & Ha & Hf & _ & Hs).
  simpl. unfold destroy, cancel, armed. rewrite Ha.
  apply Nat.eqb_neq in Hpos. rewrite Hpos. simpl.
  rewrite Hs, (remove_fresh id (sources l0) _ Hf). auto.
Qed.

Lemma destroy_detaches_the_timer_witness :
  sources (loop (destroy (fold_left interval_changed [60]
                                    (init 300 (mkLoop [(4%nat, 5)] 7)))))
  = [(4%nat, 5)].
Proof.
  refine (proj1 (proj2 (destroy_detaches_the_timer
                          (mkLoop [(4%nat, 5)] 7) 300 [60] _))).
  repeat constructor.
Defined.

End TimerCoverage.

(* ================================================================== *)
(** * The switches of the notification filter *)
(* ================================================================== *)

Module PrefsCoverage.
Import JS GitHub Spec Samples Prefs ClientCoverage.
Local Open Scope list_scope.

Lemma set_add_In k s x : In x (set_add k s) <-> x = k \/ In x s.
Proof.
  induction s as [|y s IH]; simpl.
  - intuition.
  - destruct (String.eqb_spec y k) as [->|Hne]; simpl.
    + intuition.
    + rewrite IH. intuition.
Qed.

Lemma set_add_NoDup k s : NoDup s -> NoDup (set_add k s).
Proof.
  induction s as [|y s IH]; simpl; intro H.
  - constructor; [intros []|constructor].
  - destruct (String.eqb_spec y k) as [->|Hne]; [exact H|].
    inversion H as [|? ? Hy Hs]; subst. constructor; [|now apply IH].
    rewrite set_add_In. intros [->|Hin]; [now apply Hne|contradiction].
Qed.

Lemma new_Set_spec l : forall acc,
  NoDup acc ->
  NoDup (fold_left (fun s k => set_add k s) l acc)
  /\ forall x, In x (fold_left (fun s k => set_add k s) l acc)
               <-> In x acc \/ In x l.
Proof.
  induction l as [|k l IH]; intros acc Hacc; simpl.
  - split; [exact Hacc|]. intuition.
  - destruct (IH (set_add k acc) (set_add_NoDup k acc Hacc)) as [Hn Hi].
    split; [exact Hn|]. intro x. rewrite Hi, set_add_In. intuition.
Qed.

(** X20.  What the switch of a reason writes to [notification-filters] is
    free of duplicates, holds the reason of the switch exactly when the
    switch is on, and holds any other reason exactly when the setting held
    it before. *)
Theorem switch_writes_a_set (active : bool) (key : string) (setting : list string) :
  NoDup (on_switch active key setting)
  /\ forall x, In x (on_switch active key setting)
               <-> (x = key /\ active = true) \/ (x <> key /\ In x setting).
Proof.
  destruct (new_Set_spec setting [] (NoDup_nil _)) as [Hn Hi].
  unfold on_switch, new_Set. destruct active.
  - split; [now apply set_add_NoDup|].
    intro x. rewrite set_add_In, Hi. simpl.
    destruct (string_dec x key) as [->|Hne]; intuition.
  - split; [now apply NoDup_filter|].
    intro x. unfold set_delete. rewrite filter_In, Hi. simpl.
    rewrite negb_true_iff, String.eqb_neq. intuition discriminate.
Qed.

Lemma delete_the_only x : forall s,
  (forall y, In y s -> y = x) -> set_delete x s = [].
Proof.
  induction s as [|y s IH]; simpl; intro H; [reflexivity|].
  rewrite (H y (or_introl eq_refl)), String.eqb_refl. simpl.
  apply IH. intros z Hz. apply H. now right.
Qed.

(** X21.  Switching off the only reason that was on leaves the filter
    empty, and with an empty filter the next fetch counts every
    notification of a 2xx array of objects, not none. *)
Theorem last_switch_off_counts_everything net token c s lm text ns key setting :
  (forall x, In x setting -> x = key) ->
  net (new_message NOTIFICATIONS_URL token "GET" None c)
  = Response s lm text (Some (VArr ns)) ->
  200 <= s < 300 ->
  forallb is_obj ns = true ->
  on_switch false key setting = []
  /\ fst (fetchNotifications net token (on_switch false key setting) c)
     = Ok (VNum (Z.of_nat (List.length ns))).
Proof.
  intros Honly Hnet Hs Hobj.
  assert (E : on_switch false key setting = []).
  { unfold on_switch. apply delete_the_only. intros y Hy. apply Honly.
    destruct (new_Set_spec setting [] (NoDup_nil _)) as [_ Hi].
    apply Hi in Hy as [[]|Hy]. exact Hy. }
  split; [exact E|]. rewrite E.
  exact (fetchNotifications_array net token [] c s lm text ns Hnet Hs Hobj).
Qed.

Lemma last_switch_off_counts_everything_witness :
  fst (fetchNotifications
         (answering 200 None "[...]" (Some (VArr three_notifications)))
         "t" (on_switch false "mention" ["mention"%string]) new_client)
  = Ok (VNum 3).
Proof.
  refine (proj2 (last_switch_off_counts_everything
            (answering 200 None "[...]" (Some (VArr three_notifications)))
            "t" new_client 200 None "[...]"%string three_notifications
            "mention"%string ["mention"%string] _ eq_refl _ eq_refl)).
  - intros x [<-|[]]. reflexivity.
  - lia.
Defined.

End PrefsCoverage.

(* ================================================================== *)
(** * The order of the reviewers *)
(* ================================================================== *)

Module ReviewerOrder.
Import JS GitHub Spec Samples.
Local Open Scope list_scope.







End ReviewerOrder.
